(** * Voxel Monkey: the voxel edit engine

    A shallow embedding of the editor session of [App] (the voxel store,
    the undo/redo history, the voxel operations), of the click dispatcher
    of [VoxelModel.tsx] and of the AI preview recolouring, followed by the
    properties of the specification.

    JavaScript objects are shared by reference: a snapshot pushed on the
    history is a copy of the _array_, whose elements are the very voxel
    objects of the store.  The model therefore keeps the voxel objects in a
    heap, and the store and every snapshot are lists of references. *)

From Stdlib Require Import ZArith Lia.
From stdpp Require Import base option list strings.

Open Scope string_scope.
Open Scope list_scope.
Open Scope Z_scope.

(** ** Data model ([types.ts]) *)

(** [Vector3 = [number, number, number]], on the integer lattice. *)
Definition Vector3 : Type := Z * Z * Z.

Record Voxel : Type := mkVoxel { position : Vector3; color : string }.

Inductive ToolType : Type := PENCIL | ERASER | PAINT | PICKER | DUPLICATE.

(** [Project], without the grid settings, which the session modelled here
    does not hold. *)
Record Project : Type := mkProject {
  project_id : string;
  project_name : string;
  project_timestamp : Z;
  project_voxels : list Voxel;
  project_currentColor : string
}.

(** ** JavaScript helpers *)

(** The only exception the modelled code can raise: reading or writing a
    property of [undefined], or spreading [undefined]. *)
Inductive exn : Type := TypeError.

Inductive result (A : Type) : Type :=
| Ok (a : A)
| Throw (e : exn).
Arguments Ok {A} a.
Arguments Throw {A} e.

Definition fails {A : Type} (r : result A) : Prop := exists e, r = Throw e.

(** [l[i]] for a number [i]: [undefined] outside [0 .. length-1]. *)
Definition idx {A : Type} (l : list A) (i : Z) : option A :=
  if i <? 0 then None else l !! Z.to_nat i.

(** [l.slice(0, e)]: a negative [e] counts from the end. *)
Definition slice0 {A : Type} (l : list A) (e : Z) : list A :=
  if e <? 0 then take (Z.to_nat (Z.max (Z.of_nat (length l) + e) 0)) l
  else take (Z.to_nat e) l.

(** [l.filter((x, i) => f(i, x))], the index counted from [i]. *)
Fixpoint filteri {A : Type} (f : nat -> A -> bool) (i : nat) (l : list A) : list A :=
  match l with
  | [] => []
  | x :: l' => if f i x then x :: filteri f (S i) l' else filteri f (S i) l'
  end.

(** Truthiness of a string: every string but the empty one. *)
Definition truthy (s : string) : bool :=
  match s with
  | EmptyString => false
  | String _ _ => true
  end.

(** [a || b] where [a] may be [undefined]. *)
Definition or_else (a : option string) (b : string) : string :=
  match a with
  | Some s => if truthy s then s else b
  | None => b
  end.

(** ** The editor session ([App]) *)

(** A reference to a voxel object: its index in the heap, in allocation
    order. *)
Abbreviation ref := nat (only parsing).

Record App : Type := mkApp {
  heap : list Voxel;            (* the voxel objects *)
  voxels : list ref;            (* useState<Voxel[]>([]) *)
  history : list (list ref);    (* useState<Voxel[][]>([]) *)
  historyStep : Z;              (* useState(-1) *)
  currentColor : string;
  currentTool : ToolType
}.

Definition setHeap (h : list Voxel) (st : App) : App :=
  mkApp h (voxels st) (history st) (historyStep st) (currentColor st) (currentTool st).
Definition setVoxels (vs : list ref) (st : App) : App :=
  mkApp (heap st) vs (history st) (historyStep st) (currentColor st) (currentTool st).
Definition setHistory (hs : list (list ref)) (st : App) : App :=
  mkApp (heap st) (voxels st) hs (historyStep st) (currentColor st) (currentTool st).
Definition setHistoryStep (n : Z) (st : App) : App :=
  mkApp (heap st) (voxels st) (history st) n (currentColor st) (currentTool st).
Definition setCurrentColor (c : string) (st : App) : App :=
  mkApp (heap st) (voxels st) (history st) (historyStep st) c (currentTool st).
Definition setCurrentTool (t : ToolType) (st : App) : App :=
  mkApp (heap st) (voxels st) (history st) (historyStep st) (currentColor st) t.

(** The session as [App] creates it; [c] is [DEFAULT_COLOR]. *)
Definition initial (c : string) : App := mkApp [] [] [] (-1) c PENCIL.

(** What a list of references denotes: the voxels, read through the heap. *)
Definition deref (h : list Voxel) (rs : list ref) : list Voxel :=
  omap (fun r => h !! r) rs.

(** The content of the store, and of the history snapshots. *)
Definition content (st : App) : list Voxel := deref (heap st) (voxels st).
Definition snapshots (st : App) : list (list Voxel) := deref (heap st) <$> history st.

(** *** History management *)

Definition recordHistory (newVoxels : list ref) (st : App) : App :=
  let newHistory := slice0 (history st) (historyStep st + 1) ++ [newVoxels] in
  let newHistory :=
    if (20 <? Z.of_nat (length newHistory)) then drop 1 newHistory else newHistory in
  setHistoryStep (Z.of_nat (length newHistory) - 1) (setHistory newHistory st).

Definition undo (st : App) : result App :=
  if 0 <? historyStep st then
    let prevStep := historyStep st - 1 in
    match idx (history st) prevStep with
    | Some snap => Ok (setHistoryStep prevStep (setVoxels snap st))
    | None => Throw TypeError
    end
  else Ok st.

Definition redo (st : App) : result App :=
  if historyStep st <? Z.of_nat (length (history st)) - 1 then
    let nextStep := historyStep st + 1 in
    match idx (history st) nextStep with
    | Some snap => Ok (setHistoryStep nextStep (setVoxels snap st))
    | None => Throw TypeError
    end
  else Ok st.

(** *** Voxel operations *)

Definition same_position (p q : Vector3) : bool :=
  let '(px, py, pz) := p in
  let '(qx, qy, qz) := q in
  (px =? qx) && (py =? qy) && (pz =? qz).

(** [voxels.some(v => v.position ... === pos ...)]. *)
Definition occupied (st : App) (pos : Vector3) : bool :=
  existsb (fun v => same_position (position v) pos) (content st).

Definition addVoxel (pos : Vector3) (overrideColor : option string) (st : App) : App :=
  if occupied st pos then st
  else
    let r := length (heap st) in
    let newVoxels := voxels st ++ [r] in
    let st := setHeap (heap st ++ [mkVoxel pos (or_else overrideColor (currentColor st))]) st in
    recordHistory newVoxels (setVoxels newVoxels st).

Definition removeVoxel (index : Z) (st : App) : App :=
  let newVoxels := filteri (fun i _ => negb (Z.of_nat i =? index)) 0 (voxels st) in
  recordHistory newVoxels (setVoxels newVoxels st).

(** [newVoxels[index].color = currentColor] writes into the voxel object
    itself, which the copy [newVoxels] shares with [voxels] and with every
    snapshot that holds it. *)
Definition paint (c : string) (v : Voxel) : Voxel := mkVoxel (position v) c.

Definition updateVoxelColor (index : Z) (st : App) : result App :=
  let newVoxels := voxels st in
  match idx newVoxels index with
  | None => Throw TypeError
  | Some r =>
      let st := setHeap (alter (paint (currentColor st)) r (heap st)) st in
      Ok (recordHistory newVoxels (setVoxels newVoxels st))
  end.

(** [voxels[index]], the object read through its reference. *)
Definition voxelAt (st : App) (index : Z) : option Voxel :=
  match idx (voxels st) index with
  | Some r => heap st !! r
  | None => None
  end.

Definition handlePickColor (index : Z) (st : App) : result App :=
  match voxelAt st index with
  | None => Throw TypeError
  | Some v => Ok (setCurrentTool PENCIL (setCurrentColor (color v) st))
  end.

(** [handleClear], once the user has confirmed. *)
Definition handleClear (st : App) : App := recordHistory [] (setVoxels [] st).

Definition startNewProject (st : App) : App :=
  setHistoryStep (-1) (setHistory [] (setVoxels [] st)).

(** Voxel objects that come from outside the session (a project parsed
    from storage, the voxels of an AI preview) enter the heap as new
    objects; the result is their references, in order. *)
Definition alloc (vs : list Voxel) (st : App) : list ref * App :=
  (seq (length (heap st)) (length vs), setHeap (heap st ++ vs) st).

(** [loadProject]: the history starts with the loaded store. *)
Definition loadProject (project : Project) (st : App) : App :=
  let '(loaded, st) := alloc (project_voxels project) st in
  setHistoryStep 0
    (setHistory [loaded]
       (setCurrentColor (project_currentColor project) (setVoxels loaded st))).

Inductive Mode : Type := replace | append.

(** [applyPreview(mode)], [previewVoxels] being the preview on display
    ([null] when there is none). *)
Definition applyPreview (mode : Mode) (previewVoxels : option (list Voxel)) (st : App)
  : App :=
  match previewVoxels with
  | None => st
  | Some preview =>
      let '(committed, st) := alloc preview st in
      let newVoxels :=
        match mode with
        | replace => committed
        | append => voxels st ++ committed
        end in
      recordHistory newVoxels (setVoxels newVoxels st)
  end.

(** ** The click dispatcher ([VoxelModel.tsx]) *)

(** The callbacks [VoxelModel] receives as props, as calls. *)
Inductive Call : Type :=
| OnRemoveVoxel (index : Z)
| OnUpdateVoxelColor (index : Z)
| OnPickColor (index : Z)
| OnAddVoxel (pos : Vector3) (color : option string).

(** The coordinates are JavaScript numbers, IEEE doubles, here the integers
    among them; the code adds and subtracts them, and the sum of two
    doubles is their exact sum rounded to 53 significant bits, to the
    nearest double and, of two that are as near, to the one whose last bit
    is 0.  On integers: up to 2^53 in magnitude nothing is rounded; beyond,
    with [e] the number of bits in excess of 53, the result is a multiple
    of [2 ^ e].  (The doubles end below 2^1024, where a sum becomes
    [Infinity]; the properties of sums below are stated within 2^53.) *)
Definition nearest_double (s : Z) : Z :=
  if Z.abs s <=? 2 ^ 53 then s
  else
    let e := Z.log2 (Z.abs s) - 52 in
    let m := Z.abs s / 2 ^ e in
    let r := Z.abs s mod 2 ^ e in
    let half := 2 ^ (e - 1) in
    let m := if (half <? r) || ((r =? half) && Z.odd m) then m + 1 else m in
    Z.sgn s * (m * 2 ^ e).

(** [x + y] and [x - y] on numbers. *)
Definition number_add (x y : Z) : Z := nearest_double (x + y).
Definition number_sub (x y : Z) : Z := nearest_double (x - y).

(** [[p[0] + n.x, p[1] + n.y, p[2] + n.z]]. *)
Definition plus (p n : Vector3) : Vector3 :=
  let '(px, py, pz) := p in
  let '(nx, ny, nz) := n in
  (number_add px nx, number_add py ny, number_add pz nz).

(** The sums of [plus] that the doubles hold exactly: those within 2^53. *)
Definition exact_plus (p n : Vector3) : Prop :=
  let '(px, py, pz) := p in
  let '(nx, ny, nz) := n in
  Z.abs (px + nx) <= 2 ^ 53 /\ Z.abs (py + ny) <= 2 ^ 53 /\ Z.abs (pz + nz) <= 2 ^ 53.

(** The cell next to [p] in the direction [n], in exact arithmetic. *)
Definition beside (p n : Vector3) : Vector3 :=
  let '(px, py, pz) := p in
  let '(nx, ny, nz) := n in
  (px + nx, py + ny, pz + nz).

(** [handleVoxelClick(e, index)]: [normal] is [e.face?.normal]; the props
    [voxels] and [currentTool] are read from the session.  The result is
    the callback it invokes, if any. *)
Definition handleVoxelClick (st : App) (normal : option Vector3) (index : Z)
  : result (option Call) :=
  match currentTool st with
  | ERASER => Ok (Some (OnRemoveVoxel index))
  | PAINT => Ok (Some (OnUpdateVoxelColor index))
  | PICKER => Ok (Some (OnPickColor index))
  | PENCIL | DUPLICATE =>
      match normal with
      | Some n =>
          match voxelAt st index with
          | None => Throw TypeError
          | Some sourceVoxel =>
              let newPos := plus (position sourceVoxel) n in
              let colorToUse :=
                match currentTool st with
                | DUPLICATE => Some (color sourceVoxel)
                | _ => None
                end in
              Ok (Some (OnAddVoxel newPos colorToUse))
          end
      | None => Ok None
      end
  end.

(** The props as [App] passes them: [onAddVoxel={addVoxel}] and so on. *)
Definition invoke (c : Call) (st : App) : result App :=
  match c with
  | OnRemoveVoxel index => Ok (removeVoxel index st)
  | OnUpdateVoxelColor index => updateVoxelColor index st
  | OnPickColor index => handlePickColor index st
  | OnAddVoxel pos c => Ok (addVoxel pos c st)
  end.

Definition clickVoxel (normal : option Vector3) (index : Z) (st : App) : result App :=
  match handleVoxelClick st normal index with
  | Ok (Some c) => invoke c st
  | Ok None => Ok st
  | Throw e => Throw e
  end.

(** ** Events of a session *)

Inductive Event : Type :=
| EvAdd (pos : Vector3) (overrideColor : option string)
| EvRemove (index : Z)
| EvPaint (index : Z)
| EvPick (index : Z)
| EvClickVoxel (normal : option Vector3) (index : Z)
| EvSetColor (c : string)
| EvSetTool (t : ToolType)
| EvUndo
| EvRedo
| EvClear
| EvNew
| EvLoad (project : Project)
| EvApply (mode : Mode) (previewVoxels : option (list Voxel)).

Definition handle (ev : Event) (st : App) : result App :=
  match ev with
  | EvAdd pos c => Ok (addVoxel pos c st)
  | EvRemove index => Ok (removeVoxel index st)
  | EvPaint index => updateVoxelColor index st
  | EvPick index => handlePickColor index st
  | EvClickVoxel normal index => clickVoxel normal index st
  | EvSetColor c => Ok (setCurrentColor c st)
  | EvSetTool t => Ok (setCurrentTool t st)
  | EvUndo => undo st
  | EvRedo => redo st
  | EvClear => Ok (handleClear st)
  | EvNew => Ok (startNewProject st)
  | EvLoad project => Ok (loadProject project st)
  | EvApply mode previewVoxels => Ok (applyPreview mode previewVoxels st)
  end.

(** The events that edit the store voxel by voxel or move along the
    history: all but loading a project and committing a preview, which
    bring in voxels from outside. *)
Definition editing (ev : Event) : Prop :=
  match ev with
  | EvLoad _ | EvApply _ _ => False
  | _ => True
  end.

(** A handler that throws leaves the state of the session as it was. *)
Definition step (st : App) (ev : Event) : App :=
  match handle ev st with
  | Ok st' => st'
  | Throw _ => st
  end.

Definition run (evs : list Event) (st : App) : App := foldl step st evs.

(** [n] presses of the undo button. *)
Fixpoint undos (n : nat) (st : App) : App :=
  match n with
  | O => st
  | S n' => undos n' (step st EvUndo)
  end.

(** ** The AI preview ([updatePreviewColor]) *)

(** The part of three.js's [Color] the recolouring uses, and the
    arithmetic on numbers it performs. *)
Class ThreeColor : Type := {
  num : Type;
  Color3 : Type;
  newColor : string -> Color3;             (* new THREE.Color(hex) *)
  getHSL : Color3 -> num * num * num;      (* h, s, l *)
  setHSL : num -> num -> num -> Color3;    (* new THREE.Color().setHSL(h, s, l) *)
  getHexString : Color3 -> string;
  Math_min : num -> num -> num;
  times : num -> num -> num;
  n1_2 : num                               (* the literal 1.2 *)
}.

Record Preview : Type := mkPreview {
  originalPreviewRef : option (list Voxel);
  previewVoxels : option (list Voxel);
  previewOverrideColor : option string
}.

Definition setPreviewVoxels (vs : option (list Voxel)) (pv : Preview) : Preview :=
  mkPreview (originalPreviewRef pv) vs (previewOverrideColor pv).
Definition setPreviewOverrideColor (hex : option string) (pv : Preview) : Preview :=
  mkPreview (originalPreviewRef pv) (previewVoxels pv) hex.

(** A preview as [handleAiRequest] stages it. *)
Definition staged (mapped : list Voxel) : Preview :=
  mkPreview (Some mapped) (Some mapped) None.

Section Recolor.
Context {three : ThreeColor}.

Definition hue (c : num * num * num) : num := c.1.1.
Definition saturation (c : num * num * num) : num := c.1.2.
Definition lightness (c : num * num * num) : num := c.2.

(** The body of the [map] callback. *)
Definition recolorVoxel (targetHsl : num * num * num) (v : Voxel) : Voxel :=
  let voxelHsl := getHSL (newColor (color v)) in
  let finalColor :=
    setHSL (hue targetHsl)
           (Math_min (saturation targetHsl) (times (saturation voxelHsl) n1_2))
           (lightness voxelHsl) in
  mkVoxel (position v) ("#" ++ getHexString finalColor)%string.

Definition updatePreviewColor (hex : option string) (pv : Preview) : Preview :=
  let pv := setPreviewOverrideColor hex pv in
  match originalPreviewRef pv with
  | None => pv
  | Some original =>
      match hex with
      | Some s =>
          if truthy s then
            let targetHsl := getHSL (newColor s) in
            setPreviewVoxels (Some (recolorVoxel targetHsl <$> original)) pv
          else setPreviewVoxels (Some original) pv
      | None => setPreviewVoxels (Some original) pv
      end
  end.
End Recolor.

(** ** Hovering, and the ghost of the voxel to place ([VoxelModel.tsx]) *)

(** [VoxelBox]'s [onPointerOver]: the placement it reports for the face
    under the pointer, [null] when the face has no normal. *)
Definition onPointerOver (voxel : Voxel) (normal : option Vector3) : option Vector3 :=
  match normal with
  | Some n => Some (plus (position voxel) n)
  | None => None
  end.


(** The test of [ghostColor]'s [find]: [dx + dy + dz === 1]. *)
Definition faceNeighbour (placementPos : Vector3) (v : Voxel) : bool :=
  let '(vx, vy, vz) := position v in
  let '(px, py, pz) := placementPos in
  let dx := Z.abs (number_sub vx px) in
  let dy := Z.abs (number_sub vy py) in
  let dz := Z.abs (number_sub vz pz) in
  number_add (number_add dx dy) dz =? 1.

Definition ghostColor (currentTool : ToolType) (placementPos : option Vector3)
  (voxels : list Voxel) (currentColor : string) : string :=
  match currentTool, placementPos with
  | DUPLICATE, Some p =>
      match List.find (faceNeighbour p) voxels with
      | Some source => color source
      | None => currentColor
      end
  | _, _ => currentColor
  end.

(** The ghost colour of a session whose pointer is on [placementPos]. *)
Definition ghostColorOf (st : App) (placementPos : option Vector3) : string :=
  ghostColor (currentTool st) placementPos (content st) (currentColor st).

(** ** The library of projects ([handleSave], [loadProject], [deleteProject]) *)

Module Gallery.

(** A project of the library held in memory: its voxels are the voxel
    objects themselves, by reference. *)
Record Tape : Type := mkTape {
  tape_id : string;
  tape_name : string;
  tape_timestamp : Z;
  tape_voxels : list ref;
  tape_gridSize : Z;
  tape_gridDensity : Z;
  tape_currentColor : string
}.

Record Station : Type := mkStation {
  session : App;
  projects : list Tape;
  currentProjectId : option string;
  currentProjectName : string;
  gridSize : Z;
  gridDensity : Z
}.

Definition setSession (st : App) (s : Station) : Station :=
  mkStation st (projects s) (currentProjectId s) (currentProjectName s)
            (gridSize s) (gridDensity s).

(** [handleSave]: [answer] is what [prompt] returns, [uuid] what
    [crypto.randomUUID()] returns and [now] what [Date.now()] returns.
    First the project it builds: its [voxels] is the array of the store. *)
Definition newProject (answer : option string) (uuid : string) (now : Z) (s : Station)
  : Tape :=
  let name := or_else answer (currentProjectName s) in
  let newId := or_else (currentProjectId s) uuid in
  mkTape newId name now (voxels (session s)) (gridSize s) (gridDensity s)
         (currentColor (session s)).

Definition handleSave (answer : option string) (uuid : string) (now : Z) (s : Station)
  : Station :=
  let name := or_else answer (currentProjectName s) in
  let newId := or_else (currentProjectId s) uuid in
  let newProject := newProject answer uuid now s in
  let updatedProjects :=
    match currentProjectId s with
    | Some cur =>
        if truthy cur
        then (fun p => if String.eqb (tape_id p) cur then newProject else p) <$> projects s
        else newProject :: projects s
    | None => newProject :: projects s
    end in
  mkStation (session s) updatedProjects (Some newId) name (gridSize s) (gridDensity s).

(** [loadProject] on a project of the library. *)
Definition loadProject (project : Tape) (s : Station) : Station :=
  let st := session s in
  let st := setVoxels (tape_voxels project) st in
  let st := setCurrentColor (tape_currentColor project) st in
  let st := setHistoryStep 0 (setHistory [tape_voxels project] st) in
  mkStation st (projects s) (Some (tape_id project)) (tape_name project)
            (tape_gridSize project) (tape_gridDensity project).

(** [deleteProject], once the user has confirmed. *)
Definition deleteProject (id : string) (s : Station) : Station :=
  let updated := List.filter (fun p => negb (String.eqb (tape_id p) id)) (projects s) in
  match currentProjectId s with
  | Some cur =>
      if String.eqb cur id
      then mkStation (session s) updated None "Untitled Tape" (gridSize s) (gridDensity s)
      else mkStation (session s) updated (Some cur) (currentProjectName s)
                     (gridSize s) (gridDensity s)
  | None =>
      mkStation (session s) updated None (currentProjectName s) (gridSize s) (gridDensity s)
  end.

(** [startNewProject]; [default_grid_size] is [DEFAULT_GRID_SIZE]. *)
Definition startNewProject (default_grid_size : Z) (s : Station) : Station :=
  mkStation (startNewProject (session s)) (projects s) None "Untitled Tape"
            default_grid_size 1.

(** Events of the editor, the library left as it is. *)
Definition edits (evs : list Event) (s : Station) : Station :=
  setSession (run evs (session s)) s.

Definition ids (s : Station) : list string := tape_id <$> projects s.

(** The identifiers of the library are distinct, and the project open in
    the editor, if it has an identifier, is in the library. *)
Definition consistent (s : Station) : Prop :=
  NoDup (ids s)
  /\ forall cur, currentProjectId s = Some cur -> cur ∈ ids s.

End Gallery.

(** An event paints when it ends in [updateVoxelColor]: a paint, or a
    click on a voxel with the PAINT tool. *)
Definition paints (st : App) (ev : Event) : Prop :=
  match ev with
  | EvPaint _ => True
  | EvClickVoxel _ _ => currentTool st = PAINT
  | _ => False
  end.

(** A run of events none of which paints. *)
Fixpoint unpainted (evs : list Event) (st : App) : Prop :=
  match evs with
  | [] => True
  | ev :: evs' => ~ paints st ev /\ unpainted evs' (step st ev)
  end.

(** ** Well-formed sessions, and sessions to try things on *)

(** The references of [rs] all point into the heap [h]. *)
Definition valid (h : list Voxel) (rs : list ref) : Prop :=
  Forall (fun r => (r < length h)%nat) rs.

(** A list of references is good in a heap when every reference points to
    an object and no two of the voxels it denotes share a position. *)
Definition good (h : list Voxel) (rs : list ref) : Prop :=
  valid h rs /\ NoDup (position <$> deref h rs).

(** The invariant of a session, for a property [P] of the lists of
    references it holds: the store and every snapshot have it, the cursor
    is [-1] or on a snapshot, the history holds twenty snapshots at most,
    and the snapshot under the cursor is the store. *)
Record InvP (P : list Voxel -> list ref -> Prop) (st : App) : Prop := mkInv {
  inv_voxels : P (heap st) (voxels st);
  inv_history : Forall (P (heap st)) (history st);
  inv_cursor : -1 <= historyStep st < Z.of_nat (length (history st));
  inv_bound : (length (history st) <= 20)%nat;
  inv_synced :
    historyStep st = -1 \/ idx (history st) (historyStep st) = Some (voxels st)
}.
Arguments inv_voxels {P st} _.
Arguments inv_history {P st} _.
Arguments inv_cursor {P st} _.
Arguments inv_bound {P st} _.
Arguments inv_synced {P st} _.

(** Every session is well formed; a session that was only edited voxel by
    voxel also keeps positions apart. *)
Definition Wf : App -> Prop := InvP valid.
Definition Inv : App -> Prop := InvP good.

(** The cursor is [-1] or on a snapshot, and the history within its cap. *)
Definition cursor_ok (st : App) : Prop :=
  -1 <= historyStep st < Z.of_nat (length (history st))
  /\ (length (history st) <= 20)%nat.

(** An index that is negative or at least the length of the store. *)
Definition out_of_range (st : App) (index : Z) : Prop :=
  index < 0 \/ Z.of_nat (length (voxels st)) <= index.

(** The specification's [color ?? currentColor]. *)
Definition nullish (a : option string) (b : string) : string :=
  match a with
  | Some s => s
  | None => b
  end.

(** One colour chosen after the other. *)
Definition setColors (cs : list string) (st : App) : App :=
  foldl (fun s c => setCurrentColor c s) st cs.

(** The store of the specification's example: one red voxel at the origin,
    the current colour green. *)
Definition example_store : App :=
  run [EvAdd (0, 0, 0) (Some "#ff0000"); EvSetColor "#00ff00"] (initial "#ff0000").

(** [n] voxels added in a row along the x axis, in the current colour. *)
Definition adds (n : nat) : list Event :=
  (fun i : nat => EvAdd (Z.of_nat i, 0, 0) None) <$> seq 0 n.

(** The example store after a second voxel, and after undoing it. *)
Definition example_two : App := step example_store (EvAdd (1, 0, 0) None).
Definition example_undone : App := step example_two EvUndo.

(** What undo and redo leave alone. *)
Definition same_but_store_and_cursor (st st' : App) : Prop :=
  heap st' = heap st /\ history st' = history st
  /\ currentColor st' = currentColor st /\ currentTool st' = currentTool st.

(** A station with the example store of two voxels in the editor and an
    empty library. *)
Definition example_station : Gallery.Station :=
  Gallery.mkStation example_two [] None "Untitled Tape" 16 1.

(** A normal of a face of a cube: one coordinate is 1 or -1, the others 0. *)
Definition unit_normal (n : Vector3) : Prop :=
  let '(x, y, z) := n in Z.abs x + Z.abs y + Z.abs z = 1.

(** * Properties *)

(** ** Numbers *)

Lemma nearest_double_exact (s : Z) : Z.abs s <= 2 ^ 53 -> nearest_double s = s.
Proof.
  intros H. unfold nearest_double.
  destruct (Z.leb_spec (Z.abs s) (2 ^ 53)); [reflexivity|lia].
Qed.


Lemma number_add_exact (x y : Z) : Z.abs (x + y) <= 2 ^ 53 -> number_add x y = x + y.
Proof. apply nearest_double_exact. Qed.

(** Within 2^53 the cell [plus] computes is the cell next to the face. *)
Lemma plus_exact (p n : Vector3) : exact_plus p n -> plus p n = beside p n.
Proof.
  destruct p as [[px py] pz], n as [[nx ny] nz]. intros (Hx & Hy & Hz).
  unfold plus, beside. now rewrite !number_add_exact.
Qed.

(** A voxel whose coordinates are below 2^53 in magnitude has all its six
    neighbours within 2^53. *)
Lemma exact_plus_unit (p n : Vector3) :
  (let '(px, py, pz) := p in
   Z.abs px < 2 ^ 53 /\ Z.abs py < 2 ^ 53 /\ Z.abs pz < 2 ^ 53) ->
  unit_normal n -> exact_plus p n.
Proof.
  destruct p as [[px py] pz], n as [[nx ny] nz]. unfold unit_normal, exact_plus.
  intros (Hx & Hy & Hz) Hn. lia.
Qed.

(** Beyond 2^53 the sum is rounded: 2^53 + 1 is 2^53, and 2^53 + 3, half
    way between two doubles, is 2^53 + 4. *)
Example number_add_rounds :
  number_add 9007199254740992 1 = 9007199254740992
  /\ number_add 9007199254740994 1 = 9007199254740996
  /\ number_add 9007199254740994 2 = 9007199254740996
  /\ number_add (-9007199254740992) (-1) = -9007199254740992
  /\ number_add 18014398509481984 3 = 18014398509481988
  /\ number_add 18014398509481984 2 = 18014398509481984.
Proof. repeat split; vm_compute; reflexivity. Qed.

(** ** Lists, references and the heap *)

Lemma idx_Some {A : Type} (l : list A) (i : Z) (x : A) :
  idx l i = Some x <-> 0 <= i /\ l !! Z.to_nat i = Some x.
Proof.
  unfold idx. destruct (Z.ltb_spec i 0); split.
  - discriminate.
  - intros [? _]. lia.
  - auto.
  - intros [_ ?]. assumption.
Qed.

Lemma idx_out_of_range {A : Type} (l : list A) (i : Z) :
  i < 0 \/ Z.of_nat (length l) <= i -> idx l i = None.
Proof.
  intros Hi. unfold idx. destruct (Z.ltb_spec i 0); [reflexivity|].
  apply lookup_ge_None. lia.
Qed.

Lemma idx_in_range {A : Type} (l : list A) (i : Z) :
  0 <= i < Z.of_nat (length l) -> is_Some (idx l i).
Proof.
  intros Hi. unfold idx. destruct (Z.ltb_spec i 0); [lia|].
  apply lookup_lt_is_Some. lia.
Qed.

Lemma idx_of_nat {A : Type} (l : list A) (n : nat) : idx l (Z.of_nat n) = l !! n.
Proof.
  unfold idx. destruct (Z.ltb_spec (Z.of_nat n) 0); [lia|].
  now rewrite Nat2Z.id.
Qed.

Lemma slice0_take {A : Type} (l : list A) (e : Z) :
  0 <= e -> slice0 l e = take (Z.to_nat e) l.
Proof. intros He. unfold slice0. destruct (Z.ltb_spec e 0); [lia|reflexivity]. Qed.

Lemma slice0_sublist {A : Type} (l : list A) (e : Z) : slice0 l e `sublist_of` l.
Proof. unfold slice0. destruct (e <? 0); apply sublist_take. Qed.

Lemma slice0_length {A : Type} (l : list A) (e : Z) :
  (length (slice0 l e) <= length l)%nat.
Proof. apply sublist_length, slice0_sublist. Qed.

Lemma filteri_sublist {A : Type} (f : nat -> A -> bool) (l : list A) (i : nat) :
  filteri f i l `sublist_of` l.
Proof.
  revert i. induction l as [|x l IH]; intros i; simpl.
  - constructor.
  - destruct (f i x); [apply sublist_skip | apply sublist_cons]; apply IH.
Qed.

Lemma filteri_all {A : Type} (f : nat -> A -> bool) (l : list A) (i : nat) :
  (forall k x, (i <= k < i + length l)%nat -> f k x = true) -> filteri f i l = l.
Proof.
  revert i. induction l as [|x l IH]; intros i Hf; simpl; [reflexivity|].
  rewrite Hf by (simpl; lia). f_equal. apply IH.
  intros k y Hk. apply Hf. simpl. lia.
Qed.

Lemma Forall_sublist {A : Type} (P : A -> Prop) (l k : list A) :
  l `sublist_of` k -> Forall P k -> Forall P l.
Proof.
  intros Hsub Hk. rewrite Forall_forall in *.
  intros x Hx. apply Hk. eapply elem_of_sublist; eassumption.
Qed.

Lemma valid_app_heap (h h' : list Voxel) (rs : list ref) :
  valid h rs -> valid (h ++ h') rs.
Proof.
  unfold valid. intros Hrs. eapply Forall_impl; [exact Hrs|].
  intros r Hr. simpl in Hr. rewrite length_app. lia.
Qed.

Lemma deref_cons (h : list Voxel) (r : ref) (rs : list ref) :
  deref h (r :: rs) =
  match h !! r with Some v => v :: deref h rs | None => deref h rs end.
Proof. reflexivity. Qed.

Lemma deref_sublist (h : list Voxel) (rs1 rs2 : list ref) :
  rs1 `sublist_of` rs2 -> deref h rs1 `sublist_of` deref h rs2.
Proof.
  induction 1 as [|r l k _ IH|r l k _ IH]; rewrite ?deref_cons.
  - constructor.
  - destruct (h !! r); [apply sublist_skip|]; exact IH.
  - destruct (h !! r); [apply sublist_cons|]; exact IH.
Qed.

(** Allocation leaves every object already referenced as it is. *)
Lemma deref_app_heap (h h' : list Voxel) (rs : list ref) :
  valid h rs -> deref (h ++ h') rs = deref h rs.
Proof.
  unfold valid. induction 1 as [|r rs Hr _ IH]; [reflexivity|].
  rewrite !deref_cons, lookup_app_l by exact Hr. now rewrite IH.
Qed.

Lemma deref_app (h : list Voxel) (rs1 rs2 : list ref) :
  deref h (rs1 ++ rs2) = deref h rs1 ++ deref h rs2.
Proof. apply omap_app. Qed.

Lemma deref_fresh (h : list Voxel) (v : Voxel) :
  deref (h ++ [v]) [length h] = [v].
Proof.
  rewrite deref_cons, lookup_app_r by lia.
  now rewrite Nat.sub_diag.
Qed.

(** Painting an object changes no position, in whatever list holds it. *)
Lemma positions_alter_paint (c : string) (r : ref) (h : list Voxel) (rs : list ref) :
  position <$> deref (alter (paint c) r h) rs = position <$> deref h rs.
Proof.
  induction rs as [|r' rs IH]; [reflexivity|].
  rewrite !deref_cons, list_lookup_alter.
  case_decide; subst; destruct (h !! r') as [v|]; simpl;
    first [exact IH | f_equal; exact IH].
Qed.

Lemma valid_alter (f : Voxel -> Voxel) (r : ref) (h : list Voxel) (rs : list ref) :
  valid h rs -> valid (alter f r h) rs.
Proof. unfold valid. now rewrite length_alter. Qed.

Lemma same_position_spec (p q : Vector3) : same_position p q = true <-> p = q.
Proof.
  destruct p as [[px py] pz], q as [[qx qy] qz]. simpl.
  rewrite !andb_true_iff, !Z.eqb_eq. split.
  - intros [[-> ->] ->]. reflexivity.
  - intros [= -> -> ->]. auto.
Qed.

Lemma occupied_spec (st : App) (pos : Vector3) :
  occupied st pos = true <-> pos ∈ position <$> content st.
Proof.
  unfold occupied. rewrite existsb_exists, list_elem_of_fmap. split.
  - intros (v & Hv & Hp). exists v. apply same_position_spec in Hp.
    split; [now symmetry|]. now apply list_elem_of_In.
  - intros (v & -> & Hv). exists v. split; [now apply list_elem_of_In|].
    now apply same_position_spec.
Qed.

(** ** The history *)

Section History.
Variables (newVoxels : list ref) (st : App).

Let kept : list (list ref) := slice0 (history st) (historyStep st + 1).

Lemma recordHistory_history :
  history (recordHistory newVoxels st) =
  if 20 <? Z.of_nat (length (kept ++ [newVoxels]))
  then drop 1 (kept ++ [newVoxels]) else kept ++ [newVoxels].
Proof. reflexivity. Qed.

Lemma recordHistory_step :
  historyStep (recordHistory newVoxels st) =
  Z.of_nat (length (history (recordHistory newVoxels st))) - 1.
Proof. reflexivity. Qed.

Lemma recordHistory_heap : heap (recordHistory newVoxels st) = heap st.
Proof. reflexivity. Qed.

Lemma recordHistory_voxels : voxels (recordHistory newVoxels st) = voxels st.
Proof. reflexivity. Qed.

Lemma recordHistory_content : content (recordHistory newVoxels st) = content st.
Proof. reflexivity. Qed.

Lemma recordHistory_nonempty :
  (1 <= length (history (recordHistory newVoxels st)))%nat.
Proof.
  rewrite recordHistory_history.
  destruct (Z.ltb_spec 20 (Z.of_nat (length (kept ++ [newVoxels])))) as [H|H].
  - rewrite length_drop. lia.
  - rewrite length_app. simpl. lia.
Qed.

Lemma recordHistory_bound :
  (length (history st) <= 20)%nat ->
  (length (history (recordHistory newVoxels st)) <= 20)%nat.
Proof.
  intros Hlen. rewrite recordHistory_history.
  assert (length kept <= length (history st))%nat by apply slice0_length.
  destruct (Z.ltb_spec 20 (Z.of_nat (length (kept ++ [newVoxels])))) as [H20|H20].
  - rewrite length_drop, length_app. simpl. lia.
  - lia.
Qed.

(** The cursor is on the snapshot just recorded. *)
Lemma recordHistory_cursor :
  idx (history (recordHistory newVoxels st)) (historyStep (recordHistory newVoxels st))
  = Some newVoxels.
Proof.
  rewrite recordHistory_step.
  pose proof recordHistory_nonempty as Hne.
  replace (Z.of_nat (length (history (recordHistory newVoxels st))) - 1)
    with (Z.of_nat (length (history (recordHistory newVoxels st)) - 1)) by lia.
  rewrite idx_of_nat. revert Hne. rewrite recordHistory_history.
  destruct (Z.ltb_spec 20 (Z.of_nat (length (kept ++ [newVoxels])))) as [H20|H20];
    intros Hne.
  - rewrite lookup_drop, length_drop. rewrite length_app in *. simpl in *.
    apply list_lookup_middle. lia.
  - rewrite length_app. simpl. apply list_lookup_middle. lia.
Qed.

Lemma recordHistory_Forall (P : list ref -> Prop) :
  Forall P (history st) -> P newVoxels ->
  Forall P (history (recordHistory newVoxels st)).
Proof.
  intros Hh Hn. rewrite recordHistory_history.
  assert (Forall P (kept ++ [newVoxels])) as Hall.
  { apply Forall_app_2; [|now constructor].
    eapply Forall_sublist; [apply slice0_sublist|exact Hh]. }
  destruct (20 <? _); [|exact Hall].
  eapply Forall_sublist; [apply sublist_drop|exact Hall].
Qed.

(** Right after a record there is nothing to redo. *)
Lemma redo_recordHistory :
  redo (recordHistory newVoxels st) = Ok (recordHistory newVoxels st).
Proof.
  unfold redo. rewrite recordHistory_step.
  destruct (Z.ltb_spec
    (Z.of_nat (length (history (recordHistory newVoxels st))) - 1)
    (Z.of_nat (length (history (recordHistory newVoxels st))) - 1)); [lia|reflexivity].
Qed.
End History.

(** ** The invariant of a session *)

Lemma valid_nil (h : list Voxel) : valid h [].
Proof. constructor. Qed.

Lemma valid_sublist (h : list Voxel) (rs1 rs2 : list ref) :
  rs1 `sublist_of` rs2 -> valid h rs2 -> valid h rs1.
Proof. apply Forall_sublist. Qed.

Lemma valid_snoc (h : list Voxel) (rs : list ref) (v : Voxel) :
  valid h rs -> valid (h ++ [v]) (rs ++ [length h]).
Proof.
  intros Hv. apply Forall_app_2; [now apply valid_app_heap|].
  constructor; [|constructor]. rewrite length_app. simpl. lia.
Qed.

Lemma valid_alloc (h vs : list Voxel) : valid (h ++ vs) (seq (length h) (length vs)).
Proof.
  apply Forall_forall. intros r Hr. apply list_elem_of_In, in_seq in Hr.
  rewrite length_app. lia.
Qed.

Lemma good_nil (h : list Voxel) : good h [].
Proof. split; [constructor|]. simpl. constructor. Qed.

Lemma good_sublist (h : list Voxel) (rs1 rs2 : list ref) :
  rs1 `sublist_of` rs2 -> good h rs2 -> good h rs1.
Proof.
  intros Hsub [Hv Hn]. split.
  - eapply Forall_sublist; eassumption.
  - eapply sublist_NoDup; [exact Hn|].
    apply fmap_sublist, deref_sublist, Hsub.
Qed.

Lemma good_app_heap (h h' : list Voxel) (rs : list ref) :
  good h rs -> good (h ++ h') rs.
Proof.
  intros [Hv Hn]. split; [now apply valid_app_heap|].
  now rewrite deref_app_heap.
Qed.

Lemma good_alter_paint (c : string) (r : ref) (h : list Voxel) (rs : list ref) :
  good h rs -> good (alter (paint c) r h) rs.
Proof.
  intros [Hv Hn]. split; [now apply valid_alter|].
  now rewrite positions_alter_paint.
Qed.

(** Appending a freshly allocated voxel at a free position. *)
Lemma good_snoc (h : list Voxel) (rs : list ref) (v : Voxel) :
  good h rs -> position v ∉ position <$> deref h rs ->
  good (h ++ [v]) (rs ++ [length h]).
Proof.
  intros [Hv Hn] Hfree. split; [now apply valid_snoc|].
  rewrite deref_app, deref_fresh, deref_app_heap, fmap_app by exact Hv.
  apply NoDup_app. split; [exact Hn|]. split.
  - intros p Hp Hin. simpl in Hin. apply list_elem_of_singleton in Hin.
    subst p. now apply Hfree.
  - simpl. apply NoDup_singleton.
Qed.

(** The events that edit keep the invariant for every property [P] that
    the empty list has and that stays when references are left out, when
    the heap grows, when an object is painted, and when a voxel allocated
    at a free position is appended. *)
Section Invariant.
Variable P : list Voxel -> list ref -> Prop.
Hypothesis P_nil : forall h, P h [].
Hypothesis P_sublist : forall h rs1 rs2, rs1 `sublist_of` rs2 -> P h rs2 -> P h rs1.
Hypothesis P_app_heap : forall h h' rs, P h rs -> P (h ++ h') rs.
Hypothesis P_alter_paint : forall c r h rs, P h rs -> P (alter (paint c) r h) rs.
Hypothesis P_snoc : forall h rs v,
  P h rs -> position v ∉ position <$> deref h rs -> P (h ++ [v]) (rs ++ [length h]).

Lemma InvP_initial (c : string) : InvP P (initial c).
Proof.
  constructor; simpl.
  - apply P_nil.
  - constructor.
  - lia.
  - lia.
  - now left.
Qed.

(** Every caller records the list it has just stored with [setVoxels]. *)
Lemma InvP_recordHistory (st : App) :
  P (heap st) (voxels st) ->
  Forall (P (heap st)) (history st) -> (length (history st) <= 20)%nat ->
  InvP P (recordHistory (voxels st) st).
Proof.
  intros Hv Hh Hb. constructor.
  - exact Hv.
  - rewrite recordHistory_heap. now apply recordHistory_Forall.
  - rewrite recordHistory_step.
    pose proof (recordHistory_nonempty (voxels st) st). lia.
  - now apply recordHistory_bound.
  - right. apply recordHistory_cursor.
Qed.

Lemma InvP_addVoxel (pos : Vector3) (c : option string) (st : App) :
  InvP P st -> InvP P (addVoxel pos c st).
Proof.
  intros HI. unfold addVoxel.
  destruct (occupied st pos) eqn:Hocc; [exact HI|].
  destruct HI as [Hv Hh Hc Hb Hs]. set (st1 := setVoxels _ _).
  apply (InvP_recordHistory st1); simpl; try assumption.
  - apply P_snoc; [exact Hv|]. simpl. intros Hin.
    apply occupied_spec in Hin. congruence.
  - eapply Forall_impl; [exact Hh|]. intros snap. apply P_app_heap.
Qed.

Lemma InvP_removeVoxel (index : Z) (st : App) : InvP P st -> InvP P (removeVoxel index st).
Proof.
  intros [Hv Hh Hc Hb Hs]. unfold removeVoxel. set (st1 := setVoxels _ _).
  apply (InvP_recordHistory st1); simpl; try assumption.
  eapply P_sublist; [apply filteri_sublist|exact Hv].
Qed.

Lemma InvP_updateVoxelColor (index : Z) (st st' : App) :
  InvP P st -> updateVoxelColor index st = Ok st' -> InvP P st'.
Proof.
  intros [Hv Hh Hc Hb Hs]. unfold updateVoxelColor.
  destruct (idx (voxels st) index) as [r|]; [|discriminate].
  intros [= <-]. set (st1 := setVoxels _ _).
  apply (InvP_recordHistory st1); simpl; try assumption.
  - now apply P_alter_paint.
  - eapply Forall_impl; [exact Hh|]. intros snap. apply P_alter_paint.
Qed.

Lemma InvP_handlePickColor (index : Z) (st st' : App) :
  InvP P st -> handlePickColor index st = Ok st' -> InvP P st'.
Proof.
  intros [Hv Hh Hc Hb Hs]. unfold handlePickColor.
  destruct (voxelAt st index); [|discriminate].
  intros [= <-]. now constructor.
Qed.

Lemma InvP_undo (st st' : App) : InvP P st -> undo st = Ok st' -> InvP P st'.
Proof.
  intros [Hv Hh Hc Hb Hs]. unfold undo.
  destruct (Z.ltb_spec 0 (historyStep st)); [|intros [= <-]; now constructor].
  destruct (idx (history st) (historyStep st - 1)) as [snap|] eqn:Hsnap; [|discriminate].
  intros [= <-]. pose proof Hsnap as Hidx. apply idx_Some in Hsnap as [_ Hsnap].
  constructor; simpl; try assumption; [|lia|now right].
  rewrite Forall_forall in Hh. apply Hh.
  eapply list_elem_of_lookup_2, Hsnap.
Qed.

Lemma InvP_redo (st st' : App) : InvP P st -> redo st = Ok st' -> InvP P st'.
Proof.
  intros [Hv Hh Hc Hb Hs]. unfold redo.
  destruct (Z.ltb_spec (historyStep st) (Z.of_nat (length (history st)) - 1));
    [|intros [= <-]; now constructor].
  destruct (idx (history st) (historyStep st + 1)) as [snap|] eqn:Hsnap; [|discriminate].
  intros [= <-]. pose proof Hsnap as Hidx. apply idx_Some in Hsnap as [_ Hsnap].
  constructor; simpl; try assumption; [|lia|now right].
  rewrite Forall_forall in Hh. apply Hh.
  eapply list_elem_of_lookup_2, Hsnap.
Qed.

Lemma InvP_handleClear (st : App) : InvP P st -> InvP P (handleClear st).
Proof.
  intros [Hv Hh Hc Hb Hs]. unfold handleClear. set (st1 := setVoxels _ _).
  apply (InvP_recordHistory st1); simpl; try assumption. apply P_nil.
Qed.

Lemma InvP_startNewProject (st : App) : InvP P st -> InvP P (startNewProject st).
Proof.
  intros _. constructor; simpl; [apply P_nil|constructor|lia|lia|now left].
Qed.

Lemma InvP_invoke (c : Call) (st st' : App) :
  InvP P st -> invoke c st = Ok st' -> InvP P st'.
Proof.
  intros HI. destruct c; simpl.
  - intros [= <-]. now apply InvP_removeVoxel.
  - now apply InvP_updateVoxelColor.
  - now apply InvP_handlePickColor.
  - intros [= <-]. now apply InvP_addVoxel.
Qed.

Lemma InvP_handle (ev : Event) (st st' : App) :
  editing ev -> InvP P st -> handle ev st = Ok st' -> InvP P st'.
Proof.
  intros Hev HI. destruct ev; simpl; try contradiction.
  - intros [= <-]. now apply InvP_addVoxel.
  - intros [= <-]. now apply InvP_removeVoxel.
  - now apply InvP_updateVoxelColor.
  - now apply InvP_handlePickColor.
  - unfold clickVoxel.
    destruct (handleVoxelClick st normal index) as [[c|]|]; [|intros [= <-]|]; try easy.
    now apply InvP_invoke.
  - intros [= <-]. destruct HI. now constructor.
  - intros [= <-]. destruct HI. now constructor.
  - now apply InvP_undo.
  - now apply InvP_redo.
  - intros [= <-]. now apply InvP_handleClear.
  - intros [= <-]. now apply InvP_startNewProject.
Qed.

Lemma InvP_step (st : App) (ev : Event) : editing ev -> InvP P st -> InvP P (step st ev).
Proof.
  intros Hev HI. unfold step. destruct (handle ev st) eqn:Hh; [|exact HI].
  eapply InvP_handle; eassumption.
Qed.
End Invariant.

(** A session that is only edited keeps positions apart. *)
Lemma Inv_initial (c : string) : Inv (initial c).
Proof. apply InvP_initial, good_nil. Qed.

Lemma Inv_step (st : App) (ev : Event) : editing ev -> Inv st -> Inv (step st ev).
Proof.
  apply InvP_step.
  - apply good_nil.
  - apply good_sublist.
  - apply good_app_heap.
  - apply good_alter_paint.
  - apply good_snoc.
Qed.

Lemma Inv_run (evs : list Event) (st : App) :
  Forall editing evs -> Inv st -> Inv (run evs st).
Proof.
  unfold run. intros Hevs. revert st.
  induction Hevs as [|ev evs Hev _ IH]; intros st HI; simpl.
  - exact HI.
  - apply IH, Inv_step; assumption.
Qed.

(** Every session is well formed, whatever its events. *)
Lemma Inv_Wf (st : App) : Inv st -> Wf st.
Proof.
  intros [[Hv _] Hh Hc Hb Hs]. constructor; try assumption.
  eapply Forall_impl; [exact Hh|]. now intros snap [H _].
Qed.

Lemma Wf_initial (c : string) : Wf (initial c).
Proof. apply InvP_initial, valid_nil. Qed.

Lemma Wf_loadProject (project : Project) (st : App) : Wf (loadProject project st).
Proof.
  unfold loadProject, alloc. constructor; simpl.
  - apply valid_alloc.
  - constructor; [apply valid_alloc|constructor].
  - lia.
  - lia.
  - now right.
Qed.

Lemma Wf_applyPreview (mode : Mode) (previewVoxels : option (list Voxel)) (st : App) :
  Wf st -> Wf (applyPreview mode previewVoxels st).
Proof.
  intros HI. unfold applyPreview. destruct previewVoxels as [preview|]; [|exact HI].
  destruct HI as [Hv Hh Hc Hb Hs]. unfold alloc.
  set (st1 := setVoxels _ _).
  apply (InvP_recordHistory valid st1); simpl; try assumption.
  - destruct mode; [apply valid_alloc|].
    apply Forall_app_2; [now apply valid_app_heap|apply valid_alloc].
  - eapply Forall_impl; [exact Hh|]. intros snap. apply valid_app_heap.
Qed.

Lemma Wf_step (st : App) (ev : Event) : Wf st -> Wf (step st ev).
Proof.
  intros HI.
  assert (editing ev -> Wf (step st ev)) as Hedit.
  { intros Hev. apply InvP_step; try assumption.
    - apply valid_nil.
    - apply valid_sublist.
    - apply valid_app_heap.
    - intros c r h rs. apply valid_alter.
    - intros h rs v Hrs _. now apply valid_snoc. }
  destruct ev; try (apply Hedit; exact I).
  - apply Wf_loadProject.
  - now apply Wf_applyPreview.
Qed.

Lemma Wf_run (evs : list Event) (st : App) : Wf st -> Wf (run evs st).
Proof.
  unfold run. revert st. induction evs as [|ev evs IH]; intros st HI; simpl.
  - exact HI.
  - apply IH, Wf_step, HI.
Qed.

(** ** Recording, then undoing *)

Section RecordUndo.
Variables (newVoxels : list ref) (st : App).
Hypothesis cursor : -1 <= historyStep st < Z.of_nat (length (history st)).
Hypothesis bound : (length (history st) <= 20)%nat.

Let kept_length :
  length (slice0 (history st) (historyStep st + 1)) = Z.to_nat (historyStep st + 1).
Proof. rewrite slice0_take, length_take by lia. lia. Qed.

(** Below the cap the snapshot is appended after the cursor, whatever
    came after the cursor is dropped, and the cursor moves up by one. *)
Lemma recordHistory_append :
  historyStep st < 19 ->
  history (recordHistory newVoxels st)
    = take (Z.to_nat (historyStep st + 1)) (history st) ++ [newVoxels]
  /\ historyStep (recordHistory newVoxels st) = historyStep st + 1.
Proof.
  intros Hlt. rewrite recordHistory_step, recordHistory_history.
  destruct (Z.ltb_spec 20 (Z.of_nat (length
    (slice0 (history st) (historyStep st + 1) ++ [newVoxels])))) as [H20|H20];
    rewrite length_app, kept_length in H20; simpl in H20; [lia|].
  rewrite length_app, kept_length. simpl.
  rewrite slice0_take by lia. split; [reflexivity|lia].
Qed.

(** At the cap (twenty snapshots, the cursor on the last) the oldest
    snapshot leaves, every other one moves down by one place, and the
    cursor stays on the last place. *)
Lemma recordHistory_evict :
  historyStep st = 19 ->
  history (recordHistory newVoxels st) = drop 1 (history st) ++ [newVoxels]
  /\ historyStep (recordHistory newVoxels st) = 19.
Proof.
  intros Heq. rewrite recordHistory_step, recordHistory_history.
  destruct (Z.ltb_spec 20 (Z.of_nat (length
    (slice0 (history st) (historyStep st + 1) ++ [newVoxels])))) as [H20|H20];
    rewrite length_app, kept_length in H20; simpl in H20; [|lia].
  rewrite slice0_take, take_ge by lia.
  assert (length (history st) = 20%nat) as Hlen by lia.
  destruct (history st) as [|h0 hs]; [discriminate|]. simpl.
  rewrite drop_0, length_app. simpl in *. split; [reflexivity|lia].
Qed.

Lemma recordHistory_cursor_value :
  historyStep (recordHistory newVoxels st) = Z.min (historyStep st + 1) 19.
Proof.
  destruct (Z.lt_ge_cases (historyStep st) 19) as [Hlt|Hge].
  - destruct (recordHistory_append Hlt) as [_ ->]. lia.
  - assert (historyStep st = 19) as Heq by lia.
    destruct (recordHistory_evict Heq) as [_ ->]. lia.
Qed.

(** The snapshot the cursor was on is the one just below the new cursor. *)
Lemma recordHistory_previous :
  0 <= historyStep st ->
  0 < historyStep (recordHistory newVoxels st)
  /\ idx (history (recordHistory newVoxels st))
         (historyStep (recordHistory newVoxels st) - 1)
     = idx (history st) (historyStep st).
Proof.
  intros Hpos.
  destruct (Z.lt_ge_cases (historyStep st) 19) as [Hlt|Hge].
  - destruct (recordHistory_append Hlt) as [-> ->]. split; [lia|].
    replace (historyStep st + 1 - 1) with (historyStep st) by lia.
    unfold idx. destruct (Z.ltb_spec (historyStep st) 0); [lia|].
    rewrite lookup_app_l by (rewrite length_take; lia).
    apply lookup_take_lt. lia.
  - assert (historyStep st = 19) as Heq by lia.
    destruct (recordHistory_evict Heq) as [-> ->]. split; [lia|].
    rewrite Heq. unfold idx. simpl.
    rewrite lookup_app_l by (rewrite length_drop; lia).
    now rewrite lookup_drop.
Qed.

(** Undo right after a record puts the store back on the list of
    references the cursor was on. *)
Lemma undo_recordHistory (snap : list ref) :
  idx (history st) (historyStep st) = Some snap ->
  exists st', undo (recordHistory newVoxels st) = Ok st'
    /\ voxels st' = snap /\ heap st' = heap st.
Proof.
  intros Hsnap. assert (0 <= historyStep st) as Hpos
    by (apply idx_Some in Hsnap; tauto).
  destruct (recordHistory_previous Hpos) as [Hlt Hprev].
  unfold undo. destruct (Z.ltb_spec 0 (historyStep (recordHistory newVoxels st))); [|lia].
  rewrite Hprev, Hsnap. eexists. split; [reflexivity|]. split; reflexivity.
Qed.
End RecordUndo.

(** Undo right after adding a voxel at a free cell restores the content. *)
Lemma undo_addVoxel (pos : Vector3) (c : option string) (st : App) :
  Wf st -> 0 <= historyStep st -> occupied st pos = false ->
  exists st', undo (addVoxel pos c st) = Ok st' /\ content st' = content st.
Proof.
  intros [Hv _ Hc Hb Hs] Hpos Hocc. unfold addVoxel. rewrite Hocc.
  destruct Hs as [Hs|Hs]; [lia|].
  set (st1 := setVoxels _ _).
  destruct (undo_recordHistory (voxels st1) st1 Hc Hb (voxels st) Hs)
    as (st' & Hundo & Hvox & Hheap).
  exists st'. split; [exact Hundo|].
  unfold content. rewrite Hvox, Hheap. simpl. now apply deref_app_heap.
Qed.

(** Undo right after a removal restores the content. *)
Lemma undo_removeVoxel (index : Z) (st : App) :
  Wf st -> 0 <= historyStep st ->
  exists st', undo (removeVoxel index st) = Ok st' /\ content st' = content st.
Proof.
  intros [_ _ Hc Hb Hs] Hpos. unfold removeVoxel.
  destruct Hs as [Hs|Hs]; [lia|].
  set (st1 := setVoxels _ _).
  destruct (undo_recordHistory (voxels st1) st1 Hc Hb (voxels st) Hs)
    as (st' & Hundo & Hvox & Hheap).
  exists st'. split; [exact Hundo|].
  unfold content. now rewrite Hvox, Hheap.
Qed.

(** Undo right after a recolouring restores the list of references, but
    the object it points to keeps the colour painted on it. *)
Lemma undo_updateVoxelColor (index : Z) (st st1 : App) :
  Wf st -> 0 <= historyStep st -> updateVoxelColor index st = Ok st1 ->
  exists st', undo st1 = Ok st'
    /\ voxels st' = voxels st
    /\ voxelAt st' index = paint (currentColor st) <$> voxelAt st index.
Proof.
  intros [_ _ Hc Hb Hs] Hpos. unfold updateVoxelColor, voxelAt.
  destruct (idx (voxels st) index) as [r|] eqn:Hr; [|discriminate].
  intros [= <-]. destruct Hs as [Hs|Hs]; [lia|].
  set (st1 := setVoxels _ _).
  destruct (undo_recordHistory (voxels st1) st1 Hc Hb (voxels st) Hs)
    as (st' & Hundo & Hvox & Hheap).
  exists st'. split; [exact Hundo|]. split; [exact Hvox|].
  rewrite Hvox, Hheap, Hr. simpl.
  rewrite list_lookup_alter. case_decide; [reflexivity|congruence].
Qed.

(** * The properties of the specification *)

Lemma Inv_example_store : Inv example_store.
Proof. apply Inv_run; [repeat constructor|apply Inv_initial]. Qed.

(** C1: the specification has undo after a record restore the prior content
    exactly, also when the recorded mutation was a colour change.  The code
    does not, after a colour change.  On the store with
    one red voxel and the current colour green, painting voxel 0 and then
    undoing succeeds, moves the cursor back from 1 to 0, and leaves the
    voxel green: the write went into the voxel object that the earlier
    snapshot shares with the store, so both snapshots of the history now
    show the green voxel and the red one is lost. *)
Theorem C1_undo_after_paint_keeps_new_color :
  let before := example_store in
  let painted := step before (EvPaint 0) in
  let after := step painted EvUndo in
  content before = [mkVoxel (0, 0, 0) "#ff0000"]
  /\ handle (EvPaint 0) before = Ok painted
  /\ historyStep painted = 1
  /\ undo painted = Ok after
  /\ historyStep after = 0
  /\ content after = [mkVoxel (0, 0, 0) "#00ff00"]
  /\ content after <> content before
  /\ snapshots painted
     = [[mkVoxel (0, 0, 0) "#00ff00"]; [mkVoxel (0, 0, 0) "#00ff00"]].
Proof.
  cbv zeta. repeat split; try reflexivity.
  vm_compute. discriminate.
Qed.

(** Undo right after the first record of a session is without effect: the
    history of a new session holds no snapshot of the empty store. *)
Example undo_first_record :
  let first := addVoxel (0, 0, 0) None (initial "#ff0000") in
  undo first = Ok first /\ content first <> content (initial "#ff0000").
Proof. split; [reflexivity|]. vm_compute. discriminate. Qed.

(** After [loadProject], whose history starts with the loaded store, the
    first record can be undone. *)
Example undo_first_record_after_load :
  let loaded := loadProject (mkProject "p1" "Untitled Tape" 0 [] "#ff0000")
                            (initial "#ff0000") in
  let first := addVoxel (0, 0, 0) None loaded in
  exists st', undo first = Ok st' /\ content st' = content loaded.
Proof. cbv zeta. eexists. split; reflexivity. Qed.

(** ** Invalid indices *)

Lemma Wf_cursor_ok (st : App) : Wf st -> cursor_ok st.
Proof. intros HI. split; apply HI. Qed.

Lemma filter_out_of_range (st : App) (index : Z) :
  out_of_range st index ->
  filteri (fun i _ => negb (Z.of_nat i =? index)) 0 (voxels st) = voxels st.
Proof.
  intros Hout. apply filteri_all. intros k _ Hk.
  apply negb_true_iff, Z.eqb_neq. unfold out_of_range in Hout. lia.
Qed.

Lemma removeVoxel_out_of_range (st : App) (index : Z) :
  out_of_range st index -> removeVoxel index st = recordHistory (voxels st) st.
Proof.
  intros Hout. unfold removeVoxel. rewrite filter_out_of_range by exact Hout.
  now destruct st.
Qed.

(** C2, as stated, fails: removing at index 5 from the one-voxel store
    raises nothing. *)
Lemma C2_removeVoxel_out_of_range_does_not_fail :
  out_of_range example_store 5 /\ ~ fails (handle (EvRemove 5) example_store).
Proof.
  split; [right; vm_compute; discriminate|].
  intros [e He]. discriminate He.
Qed.

(** C2, amended: for an out-of-range index [removeVoxel] does not fail and
    leaves the content of the store as it is, while still recording a
    snapshot of it, and [updateVoxelColor] fails, with the [TypeError] of a
    write to [undefined] (the code has no [IndexOutOfRange] of its own),
    and leaves the whole session as it is. *)
Theorem C2_out_of_range_index (st : App) (index : Z) :
  out_of_range st index ->
  (exists st', handle (EvRemove index) st = Ok st' /\ content st' = content st
     /\ history st' = history (recordHistory (voxels st) st)
     /\ idx (history st') (historyStep st') = Some (voxels st))
  /\ handle (EvPaint index) st = Throw TypeError
  /\ step st (EvPaint index) = st.
Proof.
  intros Hout. split; [|split].
  - exists (removeVoxel index st). split; [reflexivity|].
    rewrite removeVoxel_out_of_range by exact Hout.
    split; [reflexivity|]. split; [reflexivity|apply recordHistory_cursor].
  - simpl. unfold updateVoxelColor. now rewrite idx_out_of_range.
  - unfold step. simpl. unfold updateVoxelColor. now rewrite idx_out_of_range.
Qed.

Lemma C2_out_of_range_index_witness :
  out_of_range example_store (-1)
  /\ (exists st', handle (EvRemove (-1)) example_store = Ok st'
        /\ content st' = content example_store
        /\ length (history st') = S (length (history example_store)))
  /\ handle (EvPaint (-1)) example_store = Throw TypeError
  /\ step example_store (EvPaint (-1)) = example_store.
Proof.
  assert (out_of_range example_store (-1)) as Hout by (left; lia).
  destruct (C2_out_of_range_index example_store (-1) Hout)
    as ((st' & Hrem & Hcontent & Hhist & _) & Hpaint & Hstep).
  split; [exact Hout|]. split; [|split; [exact Hpaint|exact Hstep]].
  exists st'. split; [exact Hrem|]. split; [exact Hcontent|].
  rewrite Hhist. reflexivity.
Defined.

(** C10: for an out-of-range index [removeVoxel] leaves the store as it
    is, yet records a snapshot of it: the history becomes the one a record
    of the unchanged store gives (the snapshots after the cursor dropped,
    the new one appended), the cursor moves onto the new snapshot, one place
    after the snapshot it was on, [min (cursor + 1) 19] in numbers, and
    nothing is left to redo. *)
Theorem C10_removeVoxel_out_of_range_records (st : App) (index : Z) :
  cursor_ok st -> out_of_range st index ->
  let st' := removeVoxel index st in
  voxels st' = voxels st /\ heap st' = heap st /\ content st' = content st
  /\ history st' = history (recordHistory (voxels st) st)
  /\ idx (history st') (historyStep st') = Some (voxels st)
  /\ historyStep st' = Z.min (historyStep st + 1) 19
  /\ (historyStep st < 19 ->
      history st' = take (Z.to_nat (historyStep st + 1)) (history st) ++ [voxels st])
  /\ (0 <= historyStep st ->
      idx (history st') (historyStep st' - 1) = idx (history st) (historyStep st))
  /\ redo st' = Ok st'.
Proof.
  intros [Hc Hb] Hout. cbv zeta.
  rewrite removeVoxel_out_of_range by exact Hout.
  repeat split.
  - apply recordHistory_cursor.
  - now apply recordHistory_cursor_value.
  - intros Hlt. now apply recordHistory_append.
  - intros Hpos. now apply recordHistory_previous.
  - apply redo_recordHistory.
Qed.

Lemma C10_removeVoxel_out_of_range_records_witness :
  cursor_ok example_store /\ out_of_range example_store 5
  /\ content (removeVoxel 5 example_store) = content example_store
  /\ historyStep example_store = 0
  /\ historyStep (removeVoxel 5 example_store) = 1
  /\ redo (removeVoxel 5 example_store) = Ok (removeVoxel 5 example_store).
Proof.
  assert (cursor_ok example_store) as Hc by (unfold cursor_ok; simpl; lia).
  assert (out_of_range example_store 5) as Ho by (right; simpl; lia).
  pose proof (C10_removeVoxel_out_of_range_records example_store 5 Hc Ho) as H.
  cbv zeta in H. destruct H as (_ & _ & Hcont & _ & _ & Hstep & _ & _ & Hredo).
  repeat split; try assumption; try apply Hc.
Defined.

(** ** Adding voxels *)

Lemma addVoxel_occupied (pos : Vector3) (c : option string) (st : App) :
  occupied st pos = true -> addVoxel pos c st = st.
Proof. intros Hocc. unfold addVoxel. now rewrite Hocc. Qed.

(** After [addVoxel] the position is occupied, whether it was before or not. *)
Lemma occupied_addVoxel (pos : Vector3) (c : option string) (st : App) :
  occupied (addVoxel pos c st) pos = true.
Proof.
  unfold addVoxel. destruct (occupied st pos) eqn:Hocc; [exact Hocc|].
  unfold occupied. rewrite recordHistory_content. unfold content. simpl.
  rewrite deref_app, deref_fresh, existsb_app. simpl.
  rewrite (proj2 (same_position_spec pos pos) eq_refl).
  now rewrite orb_true_r.
Qed.

(** What [addVoxel] does at a free position. *)
Lemma addVoxel_free (pos : Vector3) (c : option string) (st : App) :
  occupied st pos = false ->
  let v := mkVoxel pos (or_else c (currentColor st)) in
  let st1 := setVoxels (voxels st ++ [length (heap st)]) (setHeap (heap st ++ [v]) st) in
  addVoxel pos c st = recordHistory (voxels st1) st1.
Proof. intros Hocc. unfold addVoxel. now rewrite Hocc. Qed.

Lemma content_addVoxel_free (pos : Vector3) (c : option string) (st : App) :
  valid (heap st) (voxels st) -> occupied st pos = false ->
  content (addVoxel pos c st)
  = content st ++ [mkVoxel pos (or_else c (currentColor st))].
Proof.
  intros Hv Hocc. rewrite addVoxel_free by exact Hocc. cbv zeta.
  rewrite recordHistory_content. unfold content. simpl.
  now rewrite deref_app, deref_fresh, deref_app_heap.
Qed.

(** C3: adding at a position that is occupied raises nothing and changes
    nothing in the session (store, voxel objects, history and cursor); and
    adding at the same position a second time, with whatever colours, leaves
    the session as the first call left it. *)
Theorem C3_addVoxel_occupied_is_noop (st : App) (pos : Vector3) (c c2 : option string) :
  (pos ∈ position <$> content st -> handle (EvAdd pos c) st = Ok st)
  /\ handle (EvAdd pos c2) (addVoxel pos c st) = Ok (addVoxel pos c st).
Proof.
  split.
  - intros Hin. apply occupied_spec in Hin. simpl.
    now rewrite addVoxel_occupied.
  - simpl. now rewrite (addVoxel_occupied pos c2 _ (occupied_addVoxel pos c st)).
Qed.

Lemma C3_addVoxel_occupied_is_noop_witness :
  (0, 0, 0) ∈ position <$> content example_store
  /\ handle (EvAdd (0, 0, 0) (Some "#0000ff")) example_store = Ok example_store
  /\ handle (EvAdd (1, 0, 0) None) (addVoxel (1, 0, 0) (Some "#0000ff") example_store)
     = Ok (addVoxel (1, 0, 0) (Some "#0000ff") example_store).
Proof.
  assert ((0, 0, 0) ∈ position <$> content example_store) as Hin
    by (apply occupied_spec; reflexivity).
  split; [exact Hin|]. split.
  - exact (proj1 (C3_addVoxel_occupied_is_noop example_store (0, 0, 0)
                    (Some "#0000ff") None) Hin).
  - exact (proj2 (C3_addVoxel_occupied_is_noop example_store (1, 0, 0)
                    (Some "#0000ff") None)).
Defined.

(** C4, as stated, fails: with the empty string as colour the voxel added
    takes the current colour, where [color ?? currentColor] is the empty
    string. *)
Lemma C4_addVoxel_empty_color_takes_current :
  occupied example_store (1, 0, 0) = false
  /\ content (addVoxel (1, 0, 0) (Some EmptyString) example_store)
     = [mkVoxel (0, 0, 0) "#ff0000"; mkVoxel (1, 0, 0) "#00ff00"]
  /\ content (addVoxel (1, 0, 0) (Some EmptyString) example_store)
     <> content example_store
        ++ [mkVoxel (1, 0, 0) (nullish (Some EmptyString) (currentColor example_store))].
Proof.
  split; [reflexivity|]. split; [reflexivity|].
  vm_compute. discriminate.
Qed.

(** C4, amended: at a free position [addVoxel] appends exactly one voxel at
    the end of the store, the voxels before it as they were, with the
    colour given if there is one and it is not the empty string, and the
    current colour otherwise; and it records exactly one snapshot, of the
    new store, on which the cursor then is. *)
Theorem C4_addVoxel_free_appends (st : App) (pos : Vector3) (c : option string) :
  valid (heap st) (voxels st) -> occupied st pos = false ->
  let st' := addVoxel pos c st in
  let color' :=
    match c with
    | Some s => if String.eqb s EmptyString then currentColor st else s
    | None => currentColor st
    end in
  content st' = content st ++ [mkVoxel pos color']
  /\ history st' = history (recordHistory (voxels st') st)
  /\ idx (history st') (historyStep st') = Some (voxels st').
Proof.
  intros Hv Hocc. cbv zeta. split; [|split].
  - rewrite content_addVoxel_free by assumption. do 2 f_equal.
    destruct c as [[|a s]|]; reflexivity.
  - now rewrite addVoxel_free by exact Hocc.
  - rewrite addVoxel_free by exact Hocc. cbv zeta.
    rewrite recordHistory_voxels. apply recordHistory_cursor.
Qed.

(** The example of the specification: the colour left out, the current
    colour green; one snapshot more in the history. *)
Lemma C4_addVoxel_free_appends_witness :
  valid (heap example_store) (voxels example_store)
  /\ occupied example_store (1, 0, 0) = false
  /\ content example_store = [mkVoxel (0, 0, 0) "#ff0000"]
  /\ content (addVoxel (1, 0, 0) None example_store)
     = [mkVoxel (0, 0, 0) "#ff0000"; mkVoxel (1, 0, 0) "#00ff00"]
  /\ length (history (addVoxel (1, 0, 0) None example_store))
     = S (length (history example_store)).
Proof.
  assert (valid (heap example_store) (voxels example_store)) as Hv
    by (repeat constructor).
  assert (occupied example_store (1, 0, 0) = false) as Hocc by reflexivity.
  destruct (C4_addVoxel_free_appends example_store (1, 0, 0) None Hv Hocc)
    as (Hcontent & _ & _).
  split; [exact Hv|]. split; [exact Hocc|]. split; [reflexivity|].
  split; [exact Hcontent|reflexivity].
Defined.

(** ** Sessions *)

(** C5: from the empty store of a new session, after every event of every
    sequence of editing events (adding, removing and recolouring voxels, and
    also picking, clicking, choosing colours and tools, undoing, redoing,
    clearing and starting anew) no two voxels of the store have the same
    position. *)
Theorem C5_no_two_voxels_share_a_position (c : string) (evs : list Event) (n : nat) :
  Forall editing evs ->
  NoDup (position <$> content (run (take n evs) (initial c))).
Proof.
  intros Hevs.
  assert (Inv (run (take n evs) (initial c))) as HI.
  { apply Inv_run; [|apply Inv_initial].
    eapply Forall_sublist; [apply sublist_take|exact Hevs]. }
  apply HI.
Qed.

Lemma C5_no_two_voxels_share_a_position_witness :
  let evs := [EvAdd (0, 0, 0) None; EvAdd (1, 0, 0) (Some "#00ff00");
              EvAdd (0, 0, 0) (Some "#0000ff"); EvPaint 1; EvRemove 0;
              EvAdd (1, 0, 0) None; EvAdd (0, 0, 0) None] in
  Forall editing evs
  /\ position <$> content (run evs (initial "#ff0000")) = [(1, 0, 0); (0, 0, 0)]
  /\ NoDup (position <$> content (run (take 7 evs) (initial "#ff0000"))).
Proof.
  cbv zeta.
  assert (Forall editing
            [EvAdd (0, 0, 0) None; EvAdd (1, 0, 0) (Some "#00ff00");
             EvAdd (0, 0, 0) (Some "#0000ff"); EvPaint 1; EvRemove 0;
             EvAdd (1, 0, 0) None; EvAdd (0, 0, 0) None]) as Hevs
    by (repeat constructor).
  split; [exact Hevs|]. split; [reflexivity|].
  exact (C5_no_two_voxels_share_a_position "#ff0000" _ 7 Hevs).
Defined.

(** Committing a preview in append mode is not an editing event: it can
    put a second voxel on a position already taken. *)
Example applyPreview_append_collides :
  position <$> content (applyPreview append (Some [mkVoxel (0, 0, 0) "#0000ff"])
                                     example_store)
  = [(0, 0, 0); (0, 0, 0)].
Proof. reflexivity. Qed.

Lemma step_undo_cursor (st : App) :
  historyStep (step st EvUndo) = historyStep st
  \/ (0 < historyStep st /\ historyStep (step st EvUndo) = historyStep st - 1).
Proof.
  unfold step. simpl. unfold undo.
  destruct (Z.ltb_spec 0 (historyStep st)); [|now left].
  destruct (idx (history st) (historyStep st - 1)); [|now left].
  right. split; [assumption|reflexivity].
Qed.

(** Undo never takes the cursor below the oldest snapshot. *)
Lemma undos_cursor (n : nat) (st : App) :
  Z.min 0 (historyStep st) <= historyStep (undos n st) <= historyStep st.
Proof.
  revert st. induction n as [|n IH]; intros st; simpl; [lia|].
  specialize (IH (step st EvUndo)).
  destruct (step_undo_cursor st) as [Heq|[Hpos Heq]]; rewrite Heq in IH; lia.
Qed.

(** However often undo is pressed, it goes back by nineteen snapshots at
    most. *)
Lemma undos_reach (n : nat) (st : App) :
  Wf st -> historyStep st - historyStep (undos n st) <= 19.
Proof.
  intros HI. pose proof (undos_cursor n st).
  pose proof (inv_cursor HI). pose proof (inv_bound HI). lia.
Qed.

(** C6: in every session, whatever its events (loading projects and
    committing previews among them), the history holds twenty snapshots at
    most; a
    record on a full history, the cursor on its last snapshot, evicts the
    oldest snapshot, every other snapshot moving down by one place, puts
    the new one last, and leaves the cursor on place 19; and undo, pressed
    however often, goes back by no more than twenty snapshots. *)
Theorem C6_history_capped_at_twenty
  (c : string) (evs : list Event) (newVoxels : list ref) (n : nat) :
  let st := run evs (initial c) in
  (length (history st) <= 20)%nat
  /\ (length (history (recordHistory newVoxels st)) <= 20)%nat
  /\ (length (history st) = 20%nat -> historyStep st = 19 ->
      history (recordHistory newVoxels st) = drop 1 (history st) ++ [newVoxels]
      /\ historyStep (recordHistory newVoxels st) = 19
      /\ forall i : nat, (i < 19)%nat ->
           history (recordHistory newVoxels st) !! i = history st !! S i)
  /\ historyStep st - historyStep (undos n st) <= 20
  /\ historyStep (recordHistory newVoxels st)
     - historyStep (undos n (recordHistory newVoxels st)) <= 20.
Proof.
  cbv zeta. pose proof (Wf_run evs (initial c) (Wf_initial c)) as HI.
  set (st := run evs (initial c)) in *.
  pose proof (inv_cursor HI) as Hc. pose proof (inv_bound HI) as Hb.
  split; [exact Hb|]. split; [now apply recordHistory_bound|].
  split; [|split].
  - intros Hlen Hstep.
    destruct (recordHistory_evict newVoxels st Hc Hb Hstep) as [Hh Hs].
    split; [exact Hh|]. split; [exact Hs|].
    intros i Hi. rewrite Hh, lookup_app_l by (rewrite length_drop; lia).
    now rewrite lookup_drop.
  - pose proof (undos_reach n st HI). lia.
  - pose proof (undos_cursor n (recordHistory newVoxels st)) as Hu.
    pose proof (recordHistory_bound newVoxels st Hb) as Hb'.
    rewrite recordHistory_step in *. lia.
Qed.

(** Twenty-one voxels added in a row: the history holds twenty snapshots,
    the one of the first voxel alone is gone, and twenty-five presses of
    undo go back nineteen snapshots, to the store of two voxels. *)
Example history_evicts_oldest :
  let st20 := run (adds 20) (initial "#ff0000") in
  let st21 := run (adds 21) (initial "#ff0000") in
  length (history st20) = 20%nat /\ historyStep st20 = 19
  /\ head (history st20) = Some [0%nat]
  /\ length (history st21) = 20%nat /\ historyStep st21 = 19
  /\ head (history st21) = Some [0%nat; 1%nat]
  /\ historyStep (undos 25 st21) = 0
  /\ length (content (undos 25 st21)) = 2%nat.
Proof. vm_compute. repeat split. Qed.





Lemma C6_history_capped_at_twenty_witness :
  let st := run (adds 20) (initial "#ff0000") in
  length (history st) = 20%nat /\ historyStep st = 19
  /\ history (recordHistory [7%nat] st) = drop 1 (history st) ++ [[7%nat]]
  /\ historyStep (recordHistory [7%nat] st) = 19.
Proof.
  cbv zeta.
  assert (length (history (run (adds 20) (initial "#ff0000"))) = 20%nat) as Hlen
    by (vm_compute; reflexivity).
  assert (historyStep (run (adds 20) (initial "#ff0000")) = 19) as Hstep
    by (vm_compute; reflexivity).
  destruct (C6_history_capped_at_twenty "#ff0000" (adds 20) [7%nat] 25)
    as (_ & _ & Hevict & _).
  destruct (Hevict Hlen Hstep) as (Hh & Hs & _).
  split; [exact Hlen|]. split; [exact Hstep|]. split; [exact Hh|exact Hs].
Defined.

(** ** The dispatcher *)

Lemma setColors_voxelAt (cs : list string) (st : App) (index : Z) :
  voxelAt (setColors cs st) index = voxelAt st index.
Proof.
  unfold setColors. revert st. induction cs as [|c cs IH]; intros st; simpl;
    [reflexivity|]. now rewrite IH.
Qed.

Lemma setColors_currentTool (cs : list string) (st : App) :
  currentTool (setColors cs st) = currentTool st.
Proof.
  unfold setColors. revert st. induction cs as [|c cs IH]; intros st; simpl;
    [reflexivity|]. now rewrite IH.
Qed.

Lemma handleVoxelClick_duplicate
  (st : App) (index : Z) (normal : Vector3) (sourceVoxel : Voxel) :
  currentTool st = DUPLICATE -> voxelAt st index = Some sourceVoxel ->
  handleVoxelClick st (Some normal) index
  = Ok (Some (OnAddVoxel (plus (position sourceVoxel) normal)
                         (Some (color sourceVoxel)))).
Proof. intros Htool Hsrc. unfold handleVoxelClick. now rewrite Htool, Hsrc. Qed.

Lemma setColors_heap (cs : list string) (st : App) :
  heap (setColors cs st) = heap st.
Proof.
  unfold setColors. revert st. induction cs as [|c cs IH]; intros st; simpl;
    [reflexivity|]. now rewrite IH.
Qed.

Lemma setColors_voxels (cs : list string) (st : App) :
  voxels (setColors cs st) = voxels st.
Proof.
  unfold setColors. revert st. induction cs as [|c cs IH]; intros st; simpl;
    [reflexivity|]. now rewrite IH.
Qed.

Lemma setColors_content (cs : list string) (st : App) :
  content (setColors cs st) = content st.
Proof. unfold content. now rewrite setColors_heap, setColors_voxels. Qed.

Lemma setColors_occupied (cs : list string) (st : App) (pos : Vector3) :
  occupied (setColors cs st) pos = occupied st pos.
Proof. unfold occupied. now rewrite setColors_content. Qed.

(** C8, as stated, fails, in three ways.  A voxel whose colour is the
    empty string (an AI preview applied, or a project loaded, can bring one
    in) is duplicated in the current colour: the dispatcher does hand
    [onAddVoxel] the colour of the clicked voxel, but [addVoxel] takes the
    empty string for no colour.  When the cell next to the face is taken,
    no voxel is added.  And at 2^53 the sum of the position and the normal
    is rounded: the cell handed to [onAddVoxel] is the cell of the clicked
    voxel itself. *)
Lemma C8_duplicate_not_always_source_color_at_next_cell :
  (let st := run [EvApply replace (Some [mkVoxel (0, 0, 0) EmptyString]);
                  EvSetTool DUPLICATE; EvSetColor "#00ff00"] (initial "#ff0000") in
   currentTool st = DUPLICATE
   /\ currentColor st = "#00ff00"
   /\ voxelAt st 0 = Some (mkVoxel (0, 0, 0) EmptyString)
   /\ handleVoxelClick st (Some (0, 1, 0)) 0
      = Ok (Some (OnAddVoxel (0, 1, 0) (Some EmptyString)))
   /\ content (step st (EvClickVoxel (Some (0, 1, 0)) 0))
      = [mkVoxel (0, 0, 0) EmptyString; mkVoxel (0, 1, 0) "#00ff00"]
   /\ content (step st (EvClickVoxel (Some (0, 1, 0)) 0))
      <> content st ++ [mkVoxel (0, 1, 0) EmptyString])
  /\ (let st := setCurrentTool DUPLICATE example_two in
      voxelAt st 0 = Some (mkVoxel (0, 0, 0) "#ff0000")
      /\ occupied st (1, 0, 0) = true
      /\ handleVoxelClick st (Some (1, 0, 0)) 0
         = Ok (Some (OnAddVoxel (1, 0, 0) (Some "#ff0000")))
      /\ step st (EvClickVoxel (Some (1, 0, 0)) 0) = st)
  /\ (let st := run [EvAdd (9007199254740992, 0, 0) None; EvSetTool DUPLICATE]
                    (initial "#ff0000") in
      voxelAt st 0 = Some (mkVoxel (9007199254740992, 0, 0) "#ff0000")
      /\ handleVoxelClick st (Some (1, 0, 0)) 0
         = Ok (Some (OnAddVoxel (9007199254740992, 0, 0) (Some "#ff0000")))
      /\ step st (EvClickVoxel (Some (1, 0, 0)) 0) = st).
Proof.
  cbv zeta. split; [|split].
  - split; [reflexivity|]. split; [reflexivity|]. split; [reflexivity|].
    split; [reflexivity|]. split; [reflexivity|].
    vm_compute. discriminate.
  - repeat split; vm_compute; reflexivity.
  - repeat split; vm_compute; reflexivity.
Qed.

(** C8, amended: with the DUPLICATE tool, a click on a face, of known
    normal, of a voxel of the store, the coordinates of the cell next to
    that face being within 2^53, where the sums of doubles are exact, and
    whatever colours were chosen before the click: the dispatcher calls
    [onAddVoxel] with that cell, the position of the clicked voxel plus the
    normal, and with the colour of the clicked voxel; the click is that
    [addVoxel]; it changes nothing when the cell is taken; and at a free
    cell the store gains one voxel there, of the colour of the clicked
    voxel unless that colour is the empty string, and then of the current
    colour, the last one chosen. *)
Theorem C8_duplicate_click
  (st : App) (cs : list string) (index : Z) (normal : Vector3) (sourceVoxel : Voxel) :
  valid (heap st) (voxels st) ->
  currentTool st = DUPLICATE -> voxelAt st index = Some sourceVoxel ->
  exact_plus (position sourceVoxel) normal ->
  let st1 := setColors cs st in
  let target := beside (position sourceVoxel) normal in
  let colorAdded :=
    if String.eqb (color sourceVoxel) EmptyString
    then currentColor st1 else color sourceVoxel in
  handleVoxelClick st1 (Some normal) index
  = Ok (Some (OnAddVoxel target (Some (color sourceVoxel))))
  /\ clickVoxel (Some normal) index st1
     = Ok (addVoxel target (Some (color sourceVoxel)) st1)
  /\ (occupied st target = true -> clickVoxel (Some normal) index st1 = Ok st1)
  /\ (occupied st target = false ->
      exists st2,
        clickVoxel (Some normal) index st1 = Ok st2
        /\ content st2 = content st ++ [mkVoxel target colorAdded]).
Proof.
  intros Hv Htool Hsrc Hex. cbv zeta. rewrite <- (plus_exact _ _ Hex).
  assert (handleVoxelClick (setColors cs st) (Some normal) index
          = Ok (Some (OnAddVoxel (plus (position sourceVoxel) normal)
                                 (Some (color sourceVoxel))))) as Hcall.
  { apply handleVoxelClick_duplicate.
    - now rewrite setColors_currentTool.
    - now rewrite setColors_voxelAt. }
  assert (clickVoxel (Some normal) index (setColors cs st)
          = Ok (addVoxel (plus (position sourceVoxel) normal)
                         (Some (color sourceVoxel)) (setColors cs st))) as Hclick.
  { unfold clickVoxel. rewrite Hcall. reflexivity. }
  split; [exact Hcall|]. split; [exact Hclick|]. split.
  - intros Hocc. rewrite Hclick, addVoxel_occupied; [reflexivity|].
    now rewrite setColors_occupied.
  - intros Hfree. eexists. split; [exact Hclick|].
    rewrite content_addVoxel_free.
    + rewrite setColors_content. do 2 f_equal.
      unfold or_else. now destruct (color sourceVoxel).
    + now rewrite setColors_heap, setColors_voxels.
    + now rewrite setColors_occupied.
Qed.

(** On the example store: the red voxel duplicated upwards is red, though
    blue and then yellow were chosen before the click. *)
Lemma C8_duplicate_click_witness :
  let st := setCurrentTool DUPLICATE example_store in
  valid (heap st) (voxels st)
  /\ currentTool st = DUPLICATE
  /\ voxelAt st 0 = Some (mkVoxel (0, 0, 0) "#ff0000")
  /\ exact_plus (0, 0, 0) (0, 1, 0)
  /\ occupied st (0, 1, 0) = false
  /\ handleVoxelClick (setColors ["#0000ff"; "#ffff00"] st) (Some (0, 1, 0)) 0
     = Ok (Some (OnAddVoxel (0, 1, 0) (Some "#ff0000")))
  /\ exists st2,
       clickVoxel (Some (0, 1, 0)) 0 (setColors ["#0000ff"; "#ffff00"] st) = Ok st2
       /\ content st2 = [mkVoxel (0, 0, 0) "#ff0000"; mkVoxel (0, 1, 0) "#ff0000"].
Proof.
  cbv zeta.
  assert (valid (heap (setCurrentTool DUPLICATE example_store))
                (voxels (setCurrentTool DUPLICATE example_store))) as Hv
    by (repeat constructor).
  assert (exact_plus (0, 0, 0) (0, 1, 0)) as Hex by (cbv; intuition discriminate).
  destruct (C8_duplicate_click (setCurrentTool DUPLICATE example_store)
              ["#0000ff"; "#ffff00"] 0 (0, 1, 0) (mkVoxel (0, 0, 0) "#ff0000")
              Hv eq_refl eq_refl Hex) as (Hcall & _ & _ & Hfree).
  split; [exact Hv|]. split; [reflexivity|]. split; [reflexivity|].
  split; [exact Hex|]. split; [reflexivity|]. split; [exact Hcall|].
  exact (Hfree eq_refl).
Defined.

(** ** Recolouring the preview *)

(** The colours themselves are computed by three.js, in doubles, and
    written back with 8 bits a channel: the model takes that library as a
    parameter and says nothing of the hue, saturation or lightness of a
    colour it writes.  What follows is what [updatePreviewColor] itself
    decides: when it recolours, from which voxels, and what it hands to
    [setHSL]. *)

(** The empty string is a target that is not null, and [updatePreviewColor]
    takes it for none: whatever three.js computes, the voxel displayed
    keeps its colour ["red"], not a colour written by [getHexString], which
    starts with [#]. *)
Lemma updatePreviewColor_empty_target :
  (forall three : ThreeColor,
     previewVoxels (updatePreviewColor (Some EmptyString) (staged [mkVoxel (0, 0, 0) "red"]))
     = Some [mkVoxel (0, 0, 0) "red"])
  /\ ~ (exists three : ThreeColor,
          previewVoxels (updatePreviewColor (Some EmptyString) (staged [mkVoxel (0, 0, 0) "red"]))
          = Some (recolorVoxel (getHSL (newColor EmptyString)) <$> [mkVoxel (0, 0, 0) "red"])).
Proof.
  split; [reflexivity|].
  intros [three H]. simpl in H. discriminate H.
Qed.

Section RecolorFacts.
Context {three : ThreeColor}.

Lemma recolorVoxel_lookup (targetHsl : num * num * num) (original : list Voxel)
  (i : nat) (v : Voxel) :
  original !! i = Some v ->
  (recolorVoxel targetHsl <$> original) !! i = Some (recolorVoxel targetHsl v).
Proof. intros Hv. now rewrite list_lookup_fmap, Hv. Qed.

(** For a preview staged from [original], whatever is displayed at the
    moment, a target colour that is neither null nor the empty string
    gives, voxel by voxel and in the same order, the position of the
    original voxel and the colour three.js writes for [setHSL] of the hue
    it reads from the target, the smaller of the saturation it reads from
    the target and 1.2 times the one it reads from the voxel, and the
    lightness it reads from the voxel; a target that is null or the empty
    string gives the original voxels back; and the original voxels stay as
    they are in both cases. *)
Lemma updatePreviewColor_spec
  (original : list Voxel) (displayed : option (list Voxel))
  (override hex : option string) :
  let pv := mkPreview (Some original) displayed override in
  let pv' := updatePreviewColor hex pv in
  originalPreviewRef pv' = Some original
  /\ previewOverrideColor pv' = hex
  /\ match hex with
     | Some s =>
         if String.eqb s EmptyString then previewVoxels pv' = Some original
         else
           let targetHsl := getHSL (newColor s) in
           exists updated,
             previewVoxels pv' = Some updated
             /\ length updated = length original
             /\ forall (i : nat) (v : Voxel), original !! i = Some v ->
                  let voxelHsl := getHSL (newColor (color v)) in
                  let finalColor :=
                    setHSL (hue targetHsl)
                           (Math_min (saturation targetHsl)
                                     (times (saturation voxelHsl) n1_2))
                           (lightness voxelHsl) in
                  updated !! i
                  = Some (mkVoxel (position v) ("#" ++ getHexString finalColor)%string)
     | None => previewVoxels pv' = Some original
     end.
Proof.
  cbv zeta. destruct hex as [[|a s]|]; simpl; repeat split; try reflexivity.
  eexists. split; [reflexivity|]. split; [apply length_fmap|].
  intros i v Hv. now apply recolorVoxel_lookup.
Qed.
End RecolorFacts.

(** * Further properties of the code *)

(** ** Moving along the history *)

Lemma App_eta (st : App) :
  mkApp (heap st) (voxels st) (history st) (historyStep st) (currentColor st)
        (currentTool st) = st.
Proof. now destruct st. Qed.

Lemma undo_effective (st : App) :
  Wf st -> 0 < historyStep st ->
  exists snap, idx (history st) (historyStep st - 1) = Some snap
    /\ undo st = Ok (setHistoryStep (historyStep st - 1) (setVoxels snap st)).
Proof.
  intros HI Hpos. pose proof (inv_cursor HI) as Hc.
  destruct (idx_in_range (history st) (historyStep st - 1)) as [snap Hsnap]; [lia|].
  exists snap. split; [exact Hsnap|]. unfold undo.
  destruct (Z.ltb_spec 0 (historyStep st)); [|lia]. now rewrite Hsnap.
Qed.

Lemma redo_effective (st : App) :
  Wf st -> historyStep st < Z.of_nat (length (history st)) - 1 ->
  exists snap, idx (history st) (historyStep st + 1) = Some snap
    /\ redo st = Ok (setHistoryStep (historyStep st + 1) (setVoxels snap st)).
Proof.
  intros HI Hlt. pose proof (inv_cursor HI) as Hc.
  destruct (idx_in_range (history st) (historyStep st + 1)) as [snap Hsnap]; [lia|].
  exists snap. split; [exact Hsnap|]. unfold redo.
  destruct (Z.ltb_spec (historyStep st) (Z.of_nat (length (history st)) - 1)); [|lia].
  now rewrite Hsnap.
Qed.

Lemma Wf_example_store : Wf example_store.
Proof. apply Wf_run, Wf_initial. Qed.

Lemma Wf_example_two : Wf example_two.
Proof. apply Wf_step, Wf_example_store. Qed.

Lemma Wf_example_undone : Wf example_undone.
Proof. apply Wf_step, Wf_example_two. Qed.

(** X1: in a well-formed session whose cursor is above the oldest snapshot,
    undo succeeds and moves the cursor down by one, and a redo right after
    it gives back the session exactly as it was: store, voxel objects,
    history, cursor, colour and tool. *)
Theorem X1_undo_then_redo (st : App) :
  Wf st -> 0 < historyStep st ->
  exists st1, undo st = Ok st1
    /\ historyStep st1 = historyStep st - 1
    /\ redo st1 = Ok st.
Proof.
  intros HI Hpos. destruct (undo_effective st HI Hpos) as (snap & Hsnap & Hundo).
  eexists. split; [exact Hundo|]. split; [reflexivity|].
  pose proof (inv_cursor HI) as Hc.
  destruct (inv_synced HI) as [Hs|Hs]; [lia|].
  unfold redo. simpl.
  destruct (Z.ltb_spec (historyStep st - 1) (Z.of_nat (length (history st)) - 1)); [|lia].
  replace (historyStep st - 1 + 1) with (historyStep st) by lia.
  rewrite Hs. unfold setHistoryStep, setVoxels. simpl. now rewrite App_eta.
Qed.

Lemma X1_undo_then_redo_witness :
  Wf example_two /\ 0 < historyStep example_two
  /\ exists st1, undo example_two = Ok st1
       /\ historyStep st1 = historyStep example_two - 1
       /\ redo st1 = Ok example_two.
Proof.
  assert (0 < historyStep example_two) as Hpos by reflexivity.
  split; [exact Wf_example_two|]. split; [exact Hpos|].
  exact (X1_undo_then_redo example_two Wf_example_two Hpos).
Defined.

(** X2: in a well-formed session whose cursor is on a snapshot that is not
    the newest, redo succeeds and moves the cursor up by one, and an undo
    right after it gives back the session exactly as it was. *)
Theorem X2_redo_then_undo (st : App) :
  Wf st -> 0 <= historyStep st < Z.of_nat (length (history st)) - 1 ->
  exists st1, redo st = Ok st1
    /\ historyStep st1 = historyStep st + 1
    /\ undo st1 = Ok st.
Proof.
  intros HI [Hpos Hlt]. destruct (redo_effective st HI Hlt) as (snap & Hsnap & Hredo).
  eexists. split; [exact Hredo|]. split; [reflexivity|].
  destruct (inv_synced HI) as [Hs|Hs]; [lia|].
  unfold undo. simpl.
  destruct (Z.ltb_spec 0 (historyStep st + 1)); [|lia].
  replace (historyStep st + 1 - 1) with (historyStep st) by lia.
  rewrite Hs. unfold setHistoryStep, setVoxels. simpl. now rewrite App_eta.
Qed.

Lemma X2_redo_then_undo_witness :
  Wf example_undone
  /\ 0 <= historyStep example_undone < Z.of_nat (length (history example_undone)) - 1
  /\ exists st1, redo example_undone = Ok st1
       /\ historyStep st1 = historyStep example_undone + 1
       /\ undo st1 = Ok example_undone.
Proof.
  assert (0 <= historyStep example_undone
          < Z.of_nat (length (history example_undone)) - 1) as Hc
    by (split; [discriminate|reflexivity]).
  split; [exact Wf_example_undone|]. split; [exact Hc|].
  exact (X2_redo_then_undo example_undone Wf_example_undone Hc).
Defined.

(** X3: in a well-formed session undo and redo never fail, and neither of
    them changes the history, a voxel object, the colour or the tool: they
    move the cursor, by one place at most and within the history, and put
    the store on the snapshot under it. *)
Theorem X3_undo_redo_never_fail (st : App) :
  Wf st ->
  (exists st', undo st = Ok st' /\ same_but_store_and_cursor st st'
     /\ historyStep st - 1 <= historyStep st' <= historyStep st /\ Wf st')
  /\ (exists st', redo st = Ok st' /\ same_but_store_and_cursor st st'
        /\ historyStep st <= historyStep st' <= historyStep st + 1 /\ Wf st').
Proof.
  intros HI. split.
  - destruct (Z.lt_ge_cases 0 (historyStep st)) as [Hpos|Hle].
    + destruct (undo_effective st HI Hpos) as (snap & Hsnap & Hundo).
      eexists. split; [exact Hundo|]. split; [repeat split|]. split; [simpl; lia|].
      eapply InvP_undo; eassumption.
    + exists st. unfold undo. destruct (Z.ltb_spec 0 (historyStep st)); [lia|].
      split; [reflexivity|]. split; [repeat split|]. split; [lia|exact HI].
  - destruct (Z.lt_ge_cases (historyStep st) (Z.of_nat (length (history st)) - 1))
      as [Hlt|Hge].
    + destruct (redo_effective st HI Hlt) as (snap & Hsnap & Hredo).
      eexists. split; [exact Hredo|]. split; [repeat split|]. split; [simpl; lia|].
      eapply InvP_redo; eassumption.
    + exists st. unfold redo.
      destruct (Z.ltb_spec (historyStep st) (Z.of_nat (length (history st)) - 1)); [lia|].
      split; [reflexivity|]. split; [repeat split|]. split; [lia|exact HI].
Qed.

Lemma X3_undo_redo_never_fail_witness :
  Wf example_two
  /\ (exists st', undo example_two = Ok st'
        /\ same_but_store_and_cursor example_two st'
        /\ historyStep example_two - 1 <= historyStep st' <= historyStep example_two
        /\ Wf st')
  /\ (exists st', redo example_two = Ok st'
        /\ same_but_store_and_cursor example_two st'
        /\ historyStep example_two <= historyStep st' <= historyStep example_two + 1
        /\ Wf st').
Proof.
  split; [exact Wf_example_two|].
  exact (X3_undo_redo_never_fail example_two Wf_example_two).
Defined.

(** ** Undoing an edit *)

Lemma step_undo_Ok (st st' : App) : undo st = Ok st' -> step st EvUndo = st'.
Proof. intros H. unfold step. simpl. now rewrite H. Qed.

Lemma run_two (ev1 ev2 : Event) (st : App) :
  run [ev1; ev2] st = step (step st ev1) ev2.
Proof. reflexivity. Qed.

Lemma step_EvAdd (pos : Vector3) (c : option string) (st : App) :
  step st (EvAdd pos c) = addVoxel pos c st.
Proof. reflexivity. Qed.

Lemma step_EvRemove (index : Z) (st : App) : step st (EvRemove index) = removeVoxel index st.
Proof. reflexivity. Qed.

Lemma step_EvClear (st : App) : step st EvClear = handleClear st.
Proof. reflexivity. Qed.

Lemma step_EvApply (mode : Mode) (pv : option (list Voxel)) (st : App) :
  step st (EvApply mode pv) = applyPreview mode pv st.
Proof. reflexivity. Qed.

Lemma setHeap_same (st : App) : setHeap (heap st) st = st.
Proof. now destruct st. Qed.

(** Undo right after a record, in full: the store goes back on the
    snapshot the cursor was on, and the cursor one place below the new
    snapshot. *)
Lemma undo_after_record (newVoxels snap : list ref) (st : App) :
  -1 <= historyStep st < Z.of_nat (length (history st)) ->
  (length (history st) <= 20)%nat ->
  idx (history st) (historyStep st) = Some snap ->
  undo (recordHistory newVoxels st)
  = Ok (setHistoryStep (Z.min (historyStep st) 18)
          (setVoxels snap (recordHistory newVoxels st))).
Proof.
  intros Hc Hb Hsnap.
  assert (0 <= historyStep st) as Hpos by (apply idx_Some in Hsnap; tauto).
  destruct (recordHistory_previous newVoxels st Hc Hb Hpos) as [Hlt Hprev].
  pose proof (recordHistory_cursor_value newVoxels st Hc Hb) as Hval.
  unfold undo. destruct (Z.ltb_spec 0 (historyStep (recordHistory newVoxels st))); [|lia].
  rewrite Hprev, Hsnap. do 2 f_equal. lia.
Qed.

(** The edits of the store all end in a record of the new store; undone
    right away, they give back the old list of references. *)
Lemma undo_after_edit (newVoxels : list ref) (h : list Voxel) (st : App) :
  Wf st -> 0 <= historyStep st ->
  let st1 := setVoxels newVoxels (setHeap h st) in
  step (recordHistory newVoxels st1) EvUndo
  = setHistoryStep (Z.min (historyStep st) 18)
      (setVoxels (voxels st) (recordHistory newVoxels st1)).
Proof.
  intros HI Hpos st1. apply step_undo_Ok.
  destruct (inv_synced HI) as [Hs|Hs]; [lia|].
  apply (undo_after_record newVoxels (voxels st) st1);
    [apply (inv_cursor HI)|apply (inv_bound HI)|exact Hs].
Qed.

Lemma undo_after_edit_same_heap (newVoxels : list ref) (st : App) :
  Wf st -> 0 <= historyStep st ->
  let st1 := setVoxels newVoxels st in
  step (recordHistory newVoxels st1) EvUndo
  = setHistoryStep (Z.min (historyStep st) 18)
      (setVoxels (voxels st) (recordHistory newVoxels st1)).
Proof.
  intros HI Hpos. pose proof (undo_after_edit newVoxels (heap st) st HI Hpos) as H.
  cbv zeta in H. now rewrite setHeap_same in H.
Qed.

(** X4: in a well-formed session that has a snapshot, adding a voxel at a
    free position and undoing right away gives back the content of the
    store, voxel for voxel, and the list of references it was. *)
Theorem X4_undo_after_add (st : App) (pos : Vector3) (c : option string) :
  Wf st -> 0 <= historyStep st -> occupied st pos = false ->
  let st' := run [EvAdd pos c; EvUndo] st in
  content st' = content st /\ voxels st' = voxels st
  /\ historyStep st' = Z.min (historyStep st) 18.
Proof.
  intros HI Hpos Hocc. cbv zeta. rewrite run_two, step_EvAdd.
  rewrite addVoxel_free by exact Hocc. cbv zeta.
  rewrite (undo_after_edit _ _ st HI Hpos).
  split; [|split; reflexivity].
  unfold content. simpl. apply deref_app_heap, (inv_voxels HI).
Qed.

Lemma X4_undo_after_add_witness :
  Wf example_store /\ 0 <= historyStep example_store
  /\ occupied example_store (1, 0, 0) = false
  /\ content (run [EvAdd (1, 0, 0) None; EvUndo] example_store) = content example_store.
Proof.
  assert (0 <= historyStep example_store) as Hpos by discriminate.
  split; [exact Wf_example_store|]. split; [exact Hpos|]. split; [reflexivity|].
  exact (proj1 (X4_undo_after_add example_store (1, 0, 0) None
                  Wf_example_store Hpos eq_refl)).
Defined.

(** X5: in a well-formed session that has a snapshot, removing at any
    index, in range or not, and undoing right away gives back the content
    of the store. *)
Theorem X5_undo_after_remove (st : App) (index : Z) :
  Wf st -> 0 <= historyStep st ->
  let st' := run [EvRemove index; EvUndo] st in
  content st' = content st /\ voxels st' = voxels st
  /\ historyStep st' = Z.min (historyStep st) 18.
Proof.
  intros HI Hpos. cbv zeta. rewrite run_two, step_EvRemove. unfold removeVoxel.
  rewrite (undo_after_edit_same_heap _ st HI Hpos). repeat split.
Qed.

Lemma X5_undo_after_remove_witness :
  Wf example_two /\ 0 <= historyStep example_two
  /\ content example_two = [mkVoxel (0, 0, 0) "#ff0000"; mkVoxel (1, 0, 0) "#00ff00"]
  /\ content (step example_two (EvRemove 0)) = [mkVoxel (1, 0, 0) "#00ff00"]
  /\ content (run [EvRemove 0; EvUndo] example_two) = content example_two.
Proof.
  assert (0 <= historyStep example_two) as Hpos by discriminate.
  split; [exact Wf_example_two|]. split; [exact Hpos|].
  split; [reflexivity|]. split; [reflexivity|].
  exact (proj1 (X5_undo_after_remove example_two 0 Wf_example_two Hpos)).
Defined.

(** X6: in a well-formed session that has a snapshot, painting the voxel
    at an index of the store and undoing right away gives back the list of
    references of the store, but the voxel painted keeps the colour painted
    on it: undo does not take a colour change back. *)
Theorem X6_undo_after_paint_keeps_paint (st : App) (index : Z) (v : Voxel) :
  Wf st -> 0 <= historyStep st -> voxelAt st index = Some v ->
  let st' := run [EvPaint index; EvUndo] st in
  voxels st' = voxels st
  /\ historyStep st' = Z.min (historyStep st) 18
  /\ voxelAt st' index = Some (paint (currentColor st) v).
Proof.
  intros HI Hpos Hv. cbv zeta. rewrite run_two.
  unfold voxelAt in Hv.
  destruct (idx (voxels st) index) as [r|] eqn:Hr; [|discriminate].
  assert (step st (EvPaint index)
          = recordHistory (voxels st)
              (setVoxels (voxels st)
                 (setHeap (alter (paint (currentColor st)) r (heap st)) st))) as ->.
  { unfold step. simpl. unfold updateVoxelColor. now rewrite Hr. }
  rewrite (undo_after_edit _ _ st HI Hpos).
  split; [reflexivity|]. split; [reflexivity|].
  unfold voxelAt. simpl. rewrite Hr, list_lookup_alter.
  case_decide; [|congruence]. now rewrite Hv.
Qed.

Lemma X6_undo_after_paint_keeps_paint_witness :
  Wf example_store /\ 0 <= historyStep example_store
  /\ voxelAt example_store 0 = Some (mkVoxel (0, 0, 0) "#ff0000")
  /\ voxelAt (run [EvPaint 0; EvUndo] example_store) 0
     = Some (mkVoxel (0, 0, 0) "#00ff00").
Proof.
  assert (0 <= historyStep example_store) as Hpos by discriminate.
  split; [exact Wf_example_store|]. split; [exact Hpos|]. split; [reflexivity|].
  exact (proj2 (proj2 (X6_undo_after_paint_keeps_paint example_store 0
                         (mkVoxel (0, 0, 0) "#ff0000") Wf_example_store Hpos eq_refl))).
Defined.

(** ** Clearing, committing a preview, loading and starting anew *)

Lemma deref_alloc (h vs : list Voxel) : deref (h ++ vs) (seq (length h) (length vs)) = vs.
Proof.
  revert h. induction vs as [|v vs IH]; intros h; [reflexivity|].
  change (seq (length h) (length (v :: vs)))
    with (length h :: seq (S (length h)) (length vs)).
  rewrite deref_cons, list_lookup_middle by reflexivity. f_equal.
  specialize (IH (h ++ [v])). rewrite <- app_assoc, length_app in IH. simpl in IH.
  now rewrite Nat.add_1_r in IH.
Qed.

(** X7: in a well-formed session that has a snapshot, clearing empties the
    store, and an undo right after it gives back the content the store
    had. *)
Theorem X7_clear_then_undo (st : App) :
  Wf st -> 0 <= historyStep st ->
  content (step st EvClear) = []
  /\ content (run [EvClear; EvUndo] st) = content st
  /\ voxels (run [EvClear; EvUndo] st) = voxels st.
Proof.
  intros HI Hpos. split; [reflexivity|]. rewrite run_two, step_EvClear.
  unfold handleClear. rewrite (undo_after_edit_same_heap _ st HI Hpos).
  split; reflexivity.
Qed.

Lemma X7_clear_then_undo_witness :
  Wf example_two /\ 0 <= historyStep example_two
  /\ content (step example_two EvClear) = []
  /\ content (run [EvClear; EvUndo] example_two)
     = [mkVoxel (0, 0, 0) "#ff0000"; mkVoxel (1, 0, 0) "#00ff00"].
Proof.
  assert (0 <= historyStep example_two) as Hpos by discriminate.
  destruct (X7_clear_then_undo example_two Wf_example_two Hpos) as (H1 & H2 & _).
  split; [exact Wf_example_two|]. split; [exact Hpos|]. split; [exact H1|].
  rewrite H2. reflexivity.
Defined.

Lemma applyPreview_Some (mode : Mode) (preview : list Voxel) (st : App) :
  let committed := seq (length (heap st)) (length preview) in
  let newVoxels := match mode with replace => committed | append => voxels st ++ committed end in
  applyPreview mode (Some preview) st
  = recordHistory newVoxels (setVoxels newVoxels (setHeap (heap st ++ preview) st)).
Proof. destruct mode; reflexivity. Qed.

(** X8: committing a preview in replace mode makes the store the voxels of
    the preview, in append mode the voxels of the store followed by those
    of the preview, with no check of their positions; with no preview on
    display it changes nothing. *)
Theorem X8_applyPreview_content (st : App) (preview : list Voxel) (mode : Mode) :
  valid (heap st) (voxels st) ->
  content (applyPreview replace (Some preview) st) = preview
  /\ content (applyPreview append (Some preview) st) = content st ++ preview
  /\ applyPreview mode None st = st.
Proof.
  intros Hv. split; [|split; [|reflexivity]].
  - rewrite applyPreview_Some. cbv zeta. rewrite recordHistory_content.
    unfold content. simpl. apply deref_alloc.
  - rewrite applyPreview_Some. cbv zeta. rewrite recordHistory_content.
    unfold content. simpl. now rewrite deref_app, deref_alloc, deref_app_heap.
Qed.

(** A preview of three voxels appended to a store of two gives five. *)
Lemma X8_applyPreview_content_witness :
  let preview := [mkVoxel (0, 1, 0) "#0000ff"; mkVoxel (0, 2, 0) "#0000ff";
                  mkVoxel (0, 3, 0) "#0000ff"] in
  valid (heap example_two) (voxels example_two)
  /\ length (content example_two) = 2%nat
  /\ length (content (applyPreview append (Some preview) example_two)) = 5%nat
  /\ content (applyPreview replace (Some preview) example_two) = preview.
Proof.
  cbv zeta. assert (valid (heap example_two) (voxels example_two)) as Hv
    by apply (inv_voxels Wf_example_two).
  destruct (X8_applyPreview_content example_two
              [mkVoxel (0, 1, 0) "#0000ff"; mkVoxel (0, 2, 0) "#0000ff";
               mkVoxel (0, 3, 0) "#0000ff"] append Hv) as (Hr & Ha & _).
  split; [exact Hv|]. split; [reflexivity|]. split; [|exact Hr].
  rewrite Ha. reflexivity.
Defined.

(** X9: in a well-formed session that has a snapshot, committing a preview,
    in either mode, and undoing right away gives back the content of the
    store. *)
Theorem X9_undo_after_applyPreview (st : App) (preview : list Voxel) (mode : Mode) :
  Wf st -> 0 <= historyStep st ->
  let st' := run [EvApply mode (Some preview); EvUndo] st in
  content st' = content st /\ voxels st' = voxels st.
Proof.
  intros HI Hpos. cbv zeta. rewrite run_two, step_EvApply, applyPreview_Some.
  cbv zeta. rewrite (undo_after_edit _ _ st HI Hpos).
  split; [|reflexivity].
  unfold content. simpl. apply deref_app_heap, (inv_voxels HI).
Qed.

Lemma X9_undo_after_applyPreview_witness :
  Wf example_two /\ 0 <= historyStep example_two
  /\ content (run [EvApply replace (Some [mkVoxel (5, 5, 5) "#0000ff"]); EvUndo]
                  example_two)
     = content example_two.
Proof.
  assert (0 <= historyStep example_two) as Hpos by discriminate.
  split; [exact Wf_example_two|]. split; [exact Hpos|].
  exact (proj1 (X9_undo_after_applyPreview example_two [mkVoxel (5, 5, 5) "#0000ff"]
                  replace Wf_example_two Hpos)).
Defined.

(** X10: whatever the session was, after [loadProject] the store holds the
    voxels of the project, in order, the current colour is the project's,
    the tool is the one it was, and the history is the one snapshot of the
    loaded store with the cursor on it, so that undo and redo change
    nothing: what was in the editor before cannot be brought back. *)
Theorem X10_loadProject (project : Project) (st : App) :
  let st' := loadProject project st in
  content st' = project_voxels project
  /\ currentColor st' = project_currentColor project
  /\ currentTool st' = currentTool st
  /\ history st' = [voxels st'] /\ historyStep st' = 0
  /\ step st' EvUndo = st' /\ step st' EvRedo = st'.
Proof.
  cbv zeta. unfold loadProject, alloc. repeat split.
  unfold content. simpl. apply deref_alloc.
Qed.

(** X11: whatever the session was, [startNewProject] leaves no snapshot, so
    that the first voxel drawn after it cannot be undone: the store then
    holds that voxel alone, and undo and redo change nothing. *)
Theorem X11_first_edit_after_new_cannot_be_undone
  (st : App) (pos : Vector3) (c : option string) :
  let st' := run [EvNew; EvAdd pos c] st in
  content (step st EvNew) = [] /\ history (step st EvNew) = []
  /\ content st' = [mkVoxel pos (or_else c (currentColor st))]
  /\ step st' EvUndo = st' /\ step st' EvRedo = st'.
Proof.
  cbv zeta. rewrite run_two. repeat split.
  unfold content. simpl. apply deref_fresh.
Qed.

(** ** Removing and painting at an index of the store *)

Lemma filteri_delete {A : Type} (l : list A) (k i : nat) :
  filteri (fun j _ => negb (Z.of_nat j =? Z.of_nat (k + i))) k l = delete i l.
Proof.
  revert k i. induction l as [|x l IH]; intros k i; [reflexivity|].
  destruct i as [|i].
  - simpl. rewrite Nat.add_0_r, Z.eqb_refl. simpl. apply filteri_all.
    intros j _ Hj. apply negb_true_iff, Z.eqb_neq. lia.
  - replace (k + S i)%nat with (S k + i)%nat by lia. simpl.
    destruct (Z.eqb_spec (Z.of_nat k) (Z.of_nat (S (k + i)))) as [Heq|_]; [lia|].
    simpl. f_equal. apply (IH (S k) i).
Qed.

Lemma removeVoxel_delete (st : App) (i : nat) :
  voxels (removeVoxel (Z.of_nat i) st) = delete i (voxels st).
Proof. unfold removeVoxel. simpl. apply (filteri_delete (voxels st) 0 i). Qed.

Lemma deref_delete (h : list Voxel) (rs : list ref) (i : nat) :
  valid h rs -> deref h (delete i rs) = delete i (deref h rs).
Proof.
  unfold valid. intros Hv. revert i.
  induction Hv as [|r rs Hr _ IH]; intros i; [reflexivity|].
  apply lookup_lt_is_Some in Hr as [v Hv].
  destruct i as [|i].
  - change (delete 0%nat (r :: rs)) with rs. now rewrite deref_cons, Hv.
  - change (delete (S i) (r :: rs)) with (r :: delete i rs).
    rewrite !deref_cons, Hv, IH. reflexivity.
Qed.

Lemma deref_lookup (h : list Voxel) (rs : list ref) (i : nat) :
  valid h rs -> deref h rs !! i = match rs !! i with Some r => h !! r | None => None end.
Proof.
  unfold valid. intros Hv. revert i.
  induction Hv as [|r rs Hr _ IH]; intros i; [reflexivity|].
  pose proof Hr as Hr'. apply lookup_lt_is_Some in Hr' as [v Hv].
  rewrite deref_cons, Hv. destruct i as [|i]; [simpl; now rewrite Hv|apply IH].
Qed.

Lemma voxelAt_content (st : App) (index : Z) :
  valid (heap st) (voxels st) -> voxelAt st index = idx (content st) index.
Proof.
  intros Hv. unfold voxelAt, idx, content.
  destruct (index <? 0); [reflexivity|]. now rewrite deref_lookup.
Qed.

Lemma NoDup_delete_lookup {A : Type} (l : list A) (i : nat) (x : A) :
  NoDup l -> l !! i = Some x -> x ∉ delete i l.
Proof.
  intros Hnd Hx Hin. apply list_elem_of_lookup in Hin as [j Hj].
  rewrite list_lookup_delete in Hj.
  destruct (decide (j < i)%nat) as [Hlt|Hge].
  - assert (j = i) by (eapply NoDup_lookup; eassumption). lia.
  - assert (S j = i) by (eapply NoDup_lookup; eassumption). lia.
Qed.

(** X12: removing at an index of the store takes out the voxel at that
    index and no other, the rest keeping their order, and touches no voxel
    object; and in a store whose voxels have distinct positions the
    position of the voxel removed is free afterwards. *)
Theorem X12_removeVoxel_in_range (st : App) (i : nat) (v : Voxel) :
  valid (heap st) (voxels st) -> voxelAt st (Z.of_nat i) = Some v ->
  let st' := removeVoxel (Z.of_nat i) st in
  content st' = delete i (content st)
  /\ S (length (content st')) = length (content st)
  /\ heap st' = heap st
  /\ (NoDup (position <$> content st) -> occupied st' (position v) = false).
Proof.
  intros Hv Hat. cbv zeta.
  assert (content (removeVoxel (Z.of_nat i) st) = delete i (content st)) as Hc.
  { unfold content. rewrite removeVoxel_delete.
    change (heap (removeVoxel (Z.of_nat i) st)) with (heap st).
    now apply deref_delete. }
  rewrite voxelAt_content, idx_of_nat in Hat by exact Hv.
  split; [exact Hc|]. split; [|split; [reflexivity|]].
  - rewrite Hc, length_delete by eauto. apply lookup_lt_Some in Hat. lia.
  - intros Hnd. destruct (occupied _ _) eqn:Hocc; [|reflexivity].
    apply occupied_spec in Hocc. rewrite Hc in Hocc. exfalso.
    assert (position <$> delete i (content st) = delete i (position <$> content st)) as Hd.
    { rewrite !delete_take_drop, fmap_app, fmap_take, fmap_drop. reflexivity. }
    rewrite Hd in Hocc. revert Hocc. apply NoDup_delete_lookup; [exact Hnd|].
    now rewrite list_lookup_fmap, Hat.
Qed.

(** An eraser click on voxel 0 of a store of two voxels: one voxel is
    left, the other, and the position of the first is free. *)
Lemma X12_removeVoxel_in_range_witness :
  valid (heap example_two) (voxels example_two)
  /\ voxelAt example_two 0 = Some (mkVoxel (0, 0, 0) "#ff0000")
  /\ NoDup (position <$> content example_two)
  /\ content (removeVoxel 0 example_two) = [mkVoxel (1, 0, 0) "#00ff00"]
  /\ occupied (removeVoxel 0 example_two) (0, 0, 0) = false.
Proof.
  assert (valid (heap example_two) (voxels example_two)) as Hv
    by apply (inv_voxels Wf_example_two).
  assert (NoDup (position <$> content example_two)) as Hnd.
  { apply NoDup_cons. split; [|apply NoDup_singleton].
    intros Hin. apply list_elem_of_singleton in Hin. discriminate Hin. }
  destruct (X12_removeVoxel_in_range example_two 0 (mkVoxel (0, 0, 0) "#ff0000")
              Hv eq_refl) as (Hc & _ & _ & Hocc).
  change (Z.of_nat 0) with 0 in Hc, Hocc.
  split; [exact Hv|]. split; [reflexivity|]. split; [exact Hnd|].
  split; [|exact (Hocc Hnd)].
  rewrite Hc. reflexivity.
Defined.

Lemma deref_alter_notin (f : Voxel -> Voxel) (r : ref) (h : list Voxel) (rs : list ref) :
  r ∉ rs -> deref (alter f r h) rs = deref h rs.
Proof.
  induction rs as [|r' rs IH]; intros Hnot; [reflexivity|].
  apply not_elem_of_cons in Hnot as [Hne Hnot].
  now rewrite !deref_cons, list_lookup_alter_ne, IH by auto.
Qed.

Lemma deref_alter (f : Voxel -> Voxel) (r : ref) (v : Voxel) (h : list Voxel)
  (rs : list ref) (i : nat) :
  valid h rs -> NoDup rs -> rs !! i = Some r -> h !! r = Some v ->
  deref (alter f r h) rs = <[i := f v]> (deref h rs).
Proof.
  unfold valid. intros Hv. revert i.
  induction Hv as [|r' rs Hr' _ IH]; intros i Hnd Hi Hr; [discriminate|].
  apply NoDup_cons in Hnd as [Hnot Hnd].
  apply lookup_lt_is_Some in Hr' as [v' Hv'].
  destruct i as [|i].
  - injection Hi as ->. rewrite !deref_cons, list_lookup_alter, Hr.
    case_decide; [|congruence]. simpl. now rewrite deref_alter_notin.
  - simpl in Hi. assert (r <> r') as Hne.
    { intros ->. apply Hnot. eapply list_elem_of_lookup_2, Hi. }
    rewrite !deref_cons, list_lookup_alter_ne, Hv' by exact Hne. simpl.
    f_equal. now apply IH.
Qed.

(** X13: in a store whose references are valid and distinct, painting at an
    index of the store succeeds and changes one voxel of the content only,
    the one at that index, and of that voxel the colour only, which becomes
    the current colour; every position stays. *)
Theorem X13_updateVoxelColor_in_range (st : App) (i : nat) (v : Voxel) :
  valid (heap st) (voxels st) -> NoDup (voxels st) ->
  voxelAt st (Z.of_nat i) = Some v ->
  exists st', updateVoxelColor (Z.of_nat i) st = Ok st'
    /\ content st' = <[i := mkVoxel (position v) (currentColor st)]> (content st)
    /\ voxels st' = voxels st.
Proof.
  intros Hv Hnd Hat. unfold voxelAt in Hat. unfold updateVoxelColor.
  destruct (idx (voxels st) (Z.of_nat i)) as [r|] eqn:Hr; [|discriminate].
  eexists. split; [reflexivity|]. split; [|reflexivity].
  rewrite recordHistory_content. unfold content. simpl.
  rewrite idx_of_nat in Hr.
  exact (deref_alter (paint (currentColor st)) r v (heap st) (voxels st) i Hv Hnd Hr Hat).
Qed.

Lemma X13_updateVoxelColor_in_range_witness :
  valid (heap example_two) (voxels example_two) /\ NoDup (voxels example_two)
  /\ voxelAt example_two 0 = Some (mkVoxel (0, 0, 0) "#ff0000")
  /\ exists st', updateVoxelColor 0 example_two = Ok st'
       /\ content st' = [mkVoxel (0, 0, 0) "#00ff00"; mkVoxel (1, 0, 0) "#00ff00"].
Proof.
  assert (valid (heap example_two) (voxels example_two)) as Hv
    by apply (inv_voxels Wf_example_two).
  assert (NoDup (voxels example_two)) as Hnd.
  { apply NoDup_cons. split; [|apply NoDup_singleton].
    intros Hin. apply list_elem_of_singleton in Hin. discriminate Hin. }
  destruct (X13_updateVoxelColor_in_range example_two 0 (mkVoxel (0, 0, 0) "#ff0000")
              Hv Hnd eq_refl) as (st' & Hok & Hc & _).
  split; [exact Hv|]. split; [exact Hnd|]. split; [reflexivity|].
  exists st'. split; [exact Hok|]. rewrite Hc. reflexivity.
Defined.

(** X14: in a store whose references are valid, adding a voxel at a free
    position and then removing at the last index gives back the content the
    store had. *)
Theorem X14_add_then_remove_last (st : App) (pos : Vector3) (c : option string) :
  valid (heap st) (voxels st) -> occupied st pos = false ->
  content (run [EvAdd pos c; EvRemove (Z.of_nat (length (voxels st)))] st) = content st.
Proof.
  intros Hv Hocc. rewrite run_two, step_EvAdd, step_EvRemove.
  unfold content. rewrite removeVoxel_delete.
  change (heap (removeVoxel ?i ?s)) with (heap s).
  rewrite addVoxel_free by exact Hocc. cbv zeta. simpl.
  rewrite delete_middle, app_nil_r. now apply deref_app_heap.
Qed.

Lemma X14_add_then_remove_last_witness :
  valid (heap example_store) (voxels example_store)
  /\ occupied example_store (1, 0, 0) = false
  /\ content (run [EvAdd (1, 0, 0) None; EvRemove 1] example_store)
     = content example_store.
Proof.
  assert (valid (heap example_store) (voxels example_store)) as Hv
    by apply (inv_voxels Wf_example_store).
  split; [exact Hv|]. split; [reflexivity|].
  exact (X14_add_then_remove_last example_store (1, 0, 0) None Hv eq_refl).
Defined.

(** ** Clicks on a voxel, tool by tool *)

(** X15: with the PICKER tool, a click on a voxel of the store, whatever
    the face, makes the colour of that voxel the current colour and PENCIL
    the tool, and changes nothing else: not the store, not a voxel object,
    not the history. *)
Theorem X15_picker_click (st : App) (normal : option Vector3) (index : Z) (v : Voxel) :
  currentTool st = PICKER -> voxelAt st index = Some v ->
  clickVoxel normal index st = Ok (setCurrentTool PENCIL (setCurrentColor (color v) st))
  /\ step st (EvClickVoxel normal index)
     = mkApp (heap st) (voxels st) (history st) (historyStep st) (color v) PENCIL.
Proof.
  intros Htool Hv.
  assert (clickVoxel normal index st
          = Ok (setCurrentTool PENCIL (setCurrentColor (color v) st))) as Hclick.
  { unfold clickVoxel, handleVoxelClick. rewrite Htool. simpl.
    unfold handlePickColor. now rewrite Hv. }
  split; [exact Hclick|]. unfold step. simpl. now rewrite Hclick.
Qed.

Lemma X15_picker_click_witness :
  let st := setCurrentTool PICKER example_two in
  currentTool st = PICKER
  /\ voxelAt st 0 = Some (mkVoxel (0, 0, 0) "#ff0000")
  /\ currentColor st = "#00ff00"
  /\ step st (EvClickVoxel None 0)
     = mkApp (heap st) (voxels st) (history st) (historyStep st) "#ff0000" PENCIL.
Proof.
  cbv zeta. split; [reflexivity|]. split; [reflexivity|]. split; [reflexivity|].
  exact (proj2 (X15_picker_click (setCurrentTool PICKER example_two) None 0
                  (mkVoxel (0, 0, 0) "#ff0000") eq_refl eq_refl)).
Defined.

(** X16: picking the colour of a voxel and then clicking a free cell of
    the grid draws a voxel of the colour picked. *)
Theorem X16_pick_then_draw
  (st : App) (normal : option Vector3) (index : Z) (v : Voxel) (pos : Vector3) :
  valid (heap st) (voxels st) ->
  currentTool st = PICKER -> voxelAt st index = Some v -> occupied st pos = false ->
  content (run [EvClickVoxel normal index; EvAdd pos None] st)
  = content st ++ [mkVoxel pos (color v)].
Proof.
  intros Hval Htool Hv Hocc. rewrite run_two, step_EvAdd.
  unfold step at 1. simpl.
  assert (clickVoxel normal index st
          = Ok (setCurrentTool PENCIL (setCurrentColor (color v) st))) as ->.
  { unfold clickVoxel, handleVoxelClick. rewrite Htool. simpl.
    unfold handlePickColor. now rewrite Hv. }
  now rewrite content_addVoxel_free.
Qed.

Lemma X16_pick_then_draw_witness :
  let st := setCurrentTool PICKER example_two in
  valid (heap st) (voxels st) /\ currentTool st = PICKER
  /\ voxelAt st 0 = Some (mkVoxel (0, 0, 0) "#ff0000")
  /\ occupied st (5, 0, 5) = false
  /\ content (run [EvClickVoxel None 0; EvAdd (5, 0, 5) None] st)
     = [mkVoxel (0, 0, 0) "#ff0000"; mkVoxel (1, 0, 0) "#00ff00";
        mkVoxel (5, 0, 5) "#ff0000"].
Proof.
  cbv zeta.
  assert (valid (heap (setCurrentTool PICKER example_two))
                (voxels (setCurrentTool PICKER example_two))) as Hv
    by apply (inv_voxels Wf_example_two).
  split; [exact Hv|]. split; [reflexivity|]. split; [reflexivity|].
  split; [reflexivity|].
  rewrite (X16_pick_then_draw (setCurrentTool PICKER example_two) None 0
             (mkVoxel (0, 0, 0) "#ff0000") (5, 0, 5) Hv eq_refl eq_refl eq_refl).
  reflexivity.
Defined.

(** X17: with the PENCIL tool, a click on a face of a voxel of the store,
    the coordinates of the cell next to that face being within 2^53, where
    the sums of doubles are exact, adds at that cell a voxel of the current
    colour, not of the colour of the voxel clicked; it changes nothing when
    that cell is taken, and nothing when the face has no normal. *)
Theorem X17_pencil_click
  (st : App) (index : Z) (normal : Vector3) (sourceVoxel : Voxel) :
  valid (heap st) (voxels st) ->
  currentTool st = PENCIL -> voxelAt st index = Some sourceVoxel ->
  exact_plus (position sourceVoxel) normal ->
  let target := beside (position sourceVoxel) normal in
  clickVoxel None index st = Ok st
  /\ clickVoxel (Some normal) index st = Ok (addVoxel target None st)
  /\ (occupied st target = true -> addVoxel target None st = st)
  /\ (occupied st target = false ->
      content (addVoxel target None st)
      = content st ++ [mkVoxel target (currentColor st)]).
Proof.
  intros Hv Htool Hsrc Hex. cbv zeta. rewrite <- (plus_exact _ _ Hex).
  split; [|split; [|split]].
  - unfold clickVoxel, handleVoxelClick. now rewrite Htool.
  - unfold clickVoxel, handleVoxelClick. now rewrite Htool, Hsrc.
  - apply addVoxel_occupied.
  - intros Hocc. now rewrite content_addVoxel_free.
Qed.

Lemma X17_pencil_click_witness :
  valid (heap example_store) (voxels example_store)
  /\ currentTool example_store = PENCIL
  /\ voxelAt example_store 0 = Some (mkVoxel (0, 0, 0) "#ff0000")
  /\ exact_plus (0, 0, 0) (0, 1, 0)
  /\ clickVoxel (Some (0, 1, 0)) 0 example_store
     = Ok (addVoxel (0, 1, 0) None example_store)
  /\ content (addVoxel (0, 1, 0) None example_store)
     = [mkVoxel (0, 0, 0) "#ff0000"; mkVoxel (0, 1, 0) "#00ff00"].
Proof.
  assert (valid (heap example_store) (voxels example_store)) as Hv
    by apply (inv_voxels Wf_example_store).
  assert (exact_plus (0, 0, 0) (0, 1, 0)) as Hex by (cbv; intuition discriminate).
  destruct (X17_pencil_click example_store 0 (0, 1, 0) (mkVoxel (0, 0, 0) "#ff0000")
              Hv eq_refl eq_refl Hex) as (_ & Hclick & _ & Hfree).
  split; [exact Hv|]. split; [reflexivity|]. split; [reflexivity|].
  split; [exact Hex|]. split; [exact Hclick|]. exact (Hfree eq_refl).
Defined.

(** Beyond 2^53 the cell computed can be the cell of the voxel clicked
    itself: the click then adds nothing. *)
Example pencil_click_beyond_exact_sums :
  let st := run [EvAdd (9007199254740992, 0, 0) None] (initial "#ff0000") in
  currentTool st = PENCIL
  /\ voxelAt st 0 = Some (mkVoxel (9007199254740992, 0, 0) "#ff0000")
  /\ plus (9007199254740992, 0, 0) (1, 0, 0) = (9007199254740992, 0, 0)
  /\ step st (EvClickVoxel (Some (1, 0, 0)) 0) = st.
Proof. repeat split; vm_compute; reflexivity. Qed.

(** X18: a click with an index that is not one of the store (a stale
    index) never changes the content of the store, a voxel object, the
    colour or the tool, whatever the tool and the face; and unless the tool
    is the ERASER, whose removal records a snapshot all the same, it
    changes nothing at all. *)
Theorem X18_stale_index_click (st : App) (normal : option Vector3) (index : Z) :
  out_of_range st index ->
  let st' := step st (EvClickVoxel normal index) in
  content st' = content st /\ voxels st' = voxels st /\ heap st' = heap st
  /\ currentColor st' = currentColor st /\ currentTool st' = currentTool st
  /\ (currentTool st <> ERASER -> st' = st).
Proof.
  intros Hout. cbv zeta.
  assert (voxelAt st index = None) as Hat
    by (unfold voxelAt; now rewrite idx_out_of_range).
  unfold step. simpl. unfold clickVoxel, handleVoxelClick.
  destruct (currentTool st) eqn:Htool; simpl.
  - destruct normal; rewrite ?Hat; repeat split; auto.
  - rewrite removeVoxel_out_of_range by exact Hout.
    repeat split; try exact Htool; try (now apply filter_out_of_range).
    intros H. congruence.
  - unfold updateVoxelColor. rewrite idx_out_of_range by exact Hout.
    repeat split; auto.
  - unfold handlePickColor. rewrite Hat. repeat split; auto.
  - destruct normal; rewrite ?Hat; repeat split; auto.
Qed.

Lemma X18_stale_index_click_witness :
  let st := setCurrentTool ERASER example_two in
  out_of_range st 2
  /\ content (step st (EvClickVoxel (Some (0, 1, 0)) 2)) = content st
  /\ historyStep st = 1
  /\ historyStep (step st (EvClickVoxel (Some (0, 1, 0)) 2)) = 2.
Proof.
  cbv zeta.
  assert (out_of_range (setCurrentTool ERASER example_two) 2) as Hout
    by (right; simpl; lia).
  split; [exact Hout|].
  split; [|split; reflexivity].
  exact (proj1 (X18_stale_index_click (setCurrentTool ERASER example_two)
                  (Some (0, 1, 0)) 2 Hout)).
Defined.

(** ** The ghost of the voxel to place *)

Lemma find_first {A : Type} (f : A -> bool) (l : list A) :
  match List.find f l with
  | Some v =>
      exists i : nat, l !! i = Some v /\ f v = true
        /\ forall (j : nat) (w : A), (j < i)%nat -> l !! j = Some w -> f w = false
  | None => Forall (fun v => f v = false) l
  end.
Proof.
  induction l as [|x l IH]; simpl; [constructor|].
  destruct (f x) eqn:Hx.
  - exists 0%nat. split; [reflexivity|]. split; [exact Hx|]. intros j w Hj. lia.
  - destruct (List.find f l) as [v|].
    + destruct IH as (i & Hi & Hv & Hbefore). exists (S i).
      split; [exact Hi|]. split; [exact Hv|].
      intros [|j] w Hj Hw; [now injection Hw as <-|].
      apply (Hbefore j w); [lia|exact Hw].
    + now constructor.
Qed.


(** X19: the ghost has the current colour unless the tool is DUPLICATE and
    a placement is hovered; then it has the colour of the first voxel, in
    the order of the store, that is a face neighbour of the placement (at
    distance 1, the coordinates' differences added up), and the current
    colour when no voxel of the store is. *)
Theorem X19_ghostColor (tool : ToolType) (placementPos : option Vector3)
  (voxels : list Voxel) (currentColor : string) :
  (tool <> DUPLICATE \/ placementPos = None ->
   ghostColor tool placementPos voxels currentColor = currentColor)
  /\ forall p : Vector3, tool = DUPLICATE -> placementPos = Some p ->
       (Forall (fun v => faceNeighbour p v = false) voxels ->
        ghostColor tool placementPos voxels currentColor = currentColor)
       /\ forall (i : nat) (v : Voxel),
            voxels !! i = Some v -> faceNeighbour p v = true ->
            (forall (j : nat) (w : Voxel),
               (j < i)%nat -> voxels !! j = Some w -> faceNeighbour p w = false) ->
            ghostColor tool placementPos voxels currentColor = color v.
Proof.
  split.
  - intros [Htool| ->]; [|now destruct tool].
    destruct tool; try reflexivity. congruence.
  - intros p -> ->. simpl. pose proof (find_first (faceNeighbour p) voxels) as Hfind.
    destruct (List.find (faceNeighbour p) voxels) as [source|]; split.
    + intros Hall. destruct Hfind as (i & Hi & Hs & _).
      rewrite Forall_forall in Hall.
      rewrite (Hall source) in Hs; [discriminate|]. eapply list_elem_of_lookup_2, Hi.
    + intros i v Hv Hn Hbefore. destruct Hfind as (k & Hk & Hs & Hkbefore).
      destruct (Nat.lt_trichotomy i k) as [Hlt|[->|Hgt]].
      * rewrite (Hkbefore i v Hlt Hv) in Hn. discriminate.
      * congruence.
      * rewrite (Hbefore k source Hgt Hk) in Hs. discriminate.
    + reflexivity.
    + intros i v Hv Hn _. rewrite Forall_forall in Hfind.
      rewrite (Hfind v) in Hn; [discriminate|]. eapply list_elem_of_lookup_2, Hv.
Qed.

(** Two voxels; the cell between them, hovered with the DUPLICATE tool,
    shows the ghost in the colour of the first of them. *)
Lemma X19_ghostColor_witness :
  let voxels := [mkVoxel (2, 0, 0) "#0000ff"; mkVoxel (0, 0, 0) "#ff0000"] in
  ghostColor PENCIL (Some (1, 0, 0)) voxels "#00ff00" = "#00ff00"
  /\ ghostColor DUPLICATE (Some (5, 5, 5)) voxels "#00ff00" = "#00ff00"
  /\ ghostColor DUPLICATE (Some (1, 0, 0)) voxels "#00ff00" = "#0000ff".
Proof.
  cbv zeta.
  pose proof (X19_ghostColor PENCIL (Some (1, 0, 0))
                [mkVoxel (2, 0, 0) "#0000ff"; mkVoxel (0, 0, 0) "#ff0000"] "#00ff00")
    as [H1 _].
  pose proof (X19_ghostColor DUPLICATE (Some (5, 5, 5))
                [mkVoxel (2, 0, 0) "#0000ff"; mkVoxel (0, 0, 0) "#ff0000"] "#00ff00")
    as [_ H2].
  pose proof (X19_ghostColor DUPLICATE (Some (1, 0, 0))
                [mkVoxel (2, 0, 0) "#0000ff"; mkVoxel (0, 0, 0) "#ff0000"] "#00ff00")
    as [_ H3].
  split; [apply H1; left; discriminate|]. split.
  - apply (H2 (5, 5, 5) eq_refl eq_refl). repeat constructor.
  - apply (proj2 (H3 (1, 0, 0) eq_refl eq_refl) 0%nat (mkVoxel (2, 0, 0) "#0000ff"));
      [reflexivity|reflexivity|]. intros j w Hj. lia.
Defined.



(** The ghost and the click can disagree: hovering, with DUPLICATE, the face
    of the red voxel that looks at the blue one two cells away shows a blue
    ghost, and the click adds a red voxel. *)
Example ghost_differs_from_duplicate :
  let st := run [EvAdd (2, 0, 0) (Some "#0000ff"); EvAdd (0, 0, 0) (Some "#ff0000");
                 EvSetTool DUPLICATE] (initial "#00ff00") in
  ghostColorOf st (onPointerOver (mkVoxel (0, 0, 0) "#ff0000") (Some (1, 0, 0)))
  = "#0000ff"
  /\ content (step st (EvClickVoxel (Some (1, 0, 0)) 1))
     = [mkVoxel (2, 0, 0) "#0000ff"; mkVoxel (0, 0, 0) "#ff0000";
        mkVoxel (1, 0, 0) "#ff0000"].
Proof. split; reflexivity. Qed.

(** ** Recolouring the preview again *)

Section RecolorAgain.
Context {three : ThreeColor}.

(** X21: recolouring works from the original voxels, never from the voxels
    on display: whatever was chosen before, a recolouring gives what it
    gives on the preview as it was.  So the same target twice gives the same
    display as once, and the null target after any other brings the
    original voxels back. *)
Theorem X21_recolor_forgets_previous (pv : Preview) (hex1 hex2 : option string) :
  updatePreviewColor hex2 (updatePreviewColor hex1 pv) = updatePreviewColor hex2 pv.
Proof.
  unfold updatePreviewColor. destruct pv as [[original|] displayed override]; simpl.
  - destruct hex1 as [[|a1 s1]|], hex2 as [[|a2 s2]|]; reflexivity.
  - reflexivity.
Qed.
End RecolorAgain.

(** ** Voxel objects over a run of events *)

Ltac same_heap := exists []; rewrite app_nil_r; reflexivity.

Lemma heap_grows_addVoxel (pos : Vector3) (c : option string) (st : App) :
  exists h', heap (addVoxel pos c st) = heap st ++ h'.
Proof.
  unfold addVoxel. destruct (occupied st pos); [same_heap|].
  eexists. reflexivity.
Qed.

(** An event that does not paint leaves every voxel object as it is: the
    heap only grows. *)
Lemma heap_grows_step (st : App) (ev : Event) :
  ~ paints st ev -> exists h', heap (step st ev) = heap st ++ h'.
Proof.
  intros Hnp. unfold step.
  destruct ev as [pos c|index|index|index|normal index|c|t| | | | |project|mode pv];
    simpl in *.
  - apply heap_grows_addVoxel.
  - same_heap.
  - contradiction.
  - unfold handlePickColor. destruct (voxelAt st index); same_heap.
  - unfold clickVoxel, handleVoxelClick.
    destruct (currentTool st) eqn:Htool; simpl.
    + destruct normal; [|same_heap].
      destruct (voxelAt st index); [apply heap_grows_addVoxel|same_heap].
    + same_heap.
    + congruence.
    + unfold handlePickColor. destruct (voxelAt st index); same_heap.
    + destruct normal; [|same_heap].
      destruct (voxelAt st index); [apply heap_grows_addVoxel|same_heap].
  - same_heap.
  - same_heap.
  - unfold undo. destruct (0 <? historyStep st); [|same_heap].
    destruct (idx _ _); same_heap.
  - unfold redo. destruct (historyStep st <? _); [|same_heap].
    destruct (idx _ _); same_heap.
  - same_heap.
  - same_heap.
  - eexists. reflexivity.
  - destruct pv as [preview|]; [|same_heap].
    rewrite applyPreview_Some. eexists. reflexivity.
Qed.

Lemma heap_grows_run (evs : list Event) (st : App) :
  unpainted evs st -> exists h', heap (run evs st) = heap st ++ h'.
Proof.
  revert st. induction evs as [|ev evs IH]; intros st Hun; [same_heap|].
  destruct Hun as [Hnp Hun].
  destruct (heap_grows_step st ev Hnp) as [h1 H1].
  destruct (IH (step st ev) Hun) as [h2 H2].
  exists (h1 ++ h2). change (run (ev :: evs) st) with (run evs (step st ev)).
  now rewrite H2, H1, app_assoc.
Qed.

(** ** The library of projects *)

Section GalleryFacts.
Import Gallery.

Lemma or_else_truthy (cur b : string) : truthy cur = true -> or_else (Some cur) b = cur.
Proof. intros H. simpl. now rewrite H. Qed.

Lemma or_else_falsy (cur b : string) : truthy cur = false -> or_else (Some cur) b = b.
Proof. intros H. simpl. now rewrite H. Qed.

(** What [handleSave] does to the library. *)
Lemma handleSave_projects (answer : option string) (uuid : string) (now : Z) (s : Station) :
  let tape := newProject answer uuid now s in
  match currentProjectId s with
  | Some cur =>
      if truthy cur
      then tape_id tape = cur
           /\ projects (handleSave answer uuid now s)
              = (fun p => if String.eqb (tape_id p) cur then tape else p) <$> projects s
      else tape_id tape = uuid
           /\ projects (handleSave answer uuid now s) = tape :: projects s
  | None => tape_id tape = uuid
            /\ projects (handleSave answer uuid now s) = tape :: projects s
  end.
Proof.
  cbv zeta. unfold handleSave, newProject.
  destruct (currentProjectId s) as [cur|]; [|split; reflexivity].
  destruct (truthy cur) eqn:Hcur; simpl; rewrite Hcur; split; reflexivity.
Qed.

Lemma ids_replace (cur : string) (tape : Tape) (l : list Tape) :
  tape_id tape = cur ->
  tape_id <$> ((fun p => if String.eqb (tape_id p) cur then tape else p) <$> l)
  = tape_id <$> l.
Proof.
  intros Hid. induction l as [|p l IH]; [reflexivity|].
  rewrite !fmap_cons, IH. f_equal.
  destruct (String.eqb_spec (tape_id p) cur); congruence.
Qed.

(** X22: in a library whose identifiers are distinct and hold the one of
    the open project, saving, with a fresh identifier at hand, stores the
    project: afterwards the library holds exactly one project with the
    identifier of the open project, and it has the voxels of the store and
    the current colour; the identifiers are still distinct, and the editor
    is as it was. *)
Theorem X22_handleSave_stores
  (s : Station) (answer : option string) (uuid : string) (now : Z) :
  consistent s -> uuid ∉ ids s ->
  let s' := handleSave answer uuid now s in
  let tape := newProject answer uuid now s in
  consistent s' /\ session s' = session s
  /\ currentProjectId s' = Some (tape_id tape)
  /\ tape ∈ projects s'
  /\ (forall t, t ∈ projects s' -> tape_id t = tape_id tape -> t = tape)
  /\ tape_voxels tape = voxels (session s)
  /\ tape_currentColor tape = currentColor (session s).
Proof.
  intros [Hnd Hcur] Hfresh. cbv zeta.
  pose proof (handleSave_projects answer uuid now s) as Hp. cbv zeta in Hp.
  set (tape := newProject answer uuid now s) in *.
  assert (currentProjectId (handleSave answer uuid now s) = Some (tape_id tape)) as Hid
    by reflexivity.
  assert (forall l : list Tape,
            tape_id tape ∉ tape_id <$> l ->
            NoDup (tape_id <$> l) ->
            NoDup (tape_id <$> (tape :: l))
            /\ tape ∈ tape :: l
            /\ forall t, t ∈ tape :: l -> tape_id t = tape_id tape -> t = tape) as Hcons.
  { intros l Hnot Hl. split; [now apply NoDup_cons|]. split; [apply list_elem_of_here|].
    intros t Ht Heq. apply elem_of_cons in Ht as [->|Ht]; [reflexivity|].
    exfalso. apply Hnot. rewrite <- Heq. now apply list_elem_of_fmap_2. }
  assert (consistent (handleSave answer uuid now s)
          /\ tape ∈ projects (handleSave answer uuid now s)
          /\ forall t, t ∈ projects (handleSave answer uuid now s) ->
               tape_id t = tape_id tape -> t = tape) as (Hc & Hin & Huniq).
  { unfold consistent, ids. rewrite Hid.
    destruct (currentProjectId s) as [cur|] eqn:Hopen.
    - destruct (truthy cur) eqn:Htr; destruct Hp as [Htid ->].
      + rewrite ids_replace by exact Htid. split; [|split].
        * split; [exact Hnd|]. intros c Hc.
          assert (c = cur) as -> by congruence. now apply Hcur.
        * specialize (Hcur cur eq_refl). unfold ids in Hcur.
          apply list_elem_of_fmap in Hcur as (p & Hpid & Hpin).
          apply list_elem_of_fmap. exists p. split; [|exact Hpin].
          destruct (String.eqb_spec (tape_id p) cur); congruence.
        * intros t Ht Heq. apply list_elem_of_fmap in Ht as (p & -> & _).
          destruct (String.eqb_spec (tape_id p) cur); congruence.
      + rewrite Htid in *. destruct (Hcons (projects s) Hfresh Hnd) as (H1 & H2 & H3).
        split; [split; [exact H1|]|split; assumption].
        intros c Hc. assert (c = uuid) as -> by congruence.
        rewrite fmap_cons, Htid. apply list_elem_of_here.
    - destruct Hp as [Htid ->]. rewrite Htid in *.
      destruct (Hcons (projects s) Hfresh Hnd) as (H1 & H2 & H3).
      split; [split; [exact H1|]|split; assumption].
      intros c Hc. assert (c = uuid) as -> by congruence.
        rewrite fmap_cons, Htid. apply list_elem_of_here. }
  split; [exact Hc|]. split; [reflexivity|]. split; [exact Hid|].
  split; [exact Hin|]. split; [exact Huniq|]. split; reflexivity.
Qed.

Lemma consistent_example_station : consistent example_station.
Proof. split; [constructor|]. intros cur Hcur. discriminate Hcur. Qed.

Lemma X22_handleSave_stores_witness :
  let s' := handleSave (Some "Monkey") "id-1" 1000 example_station in
  consistent example_station /\ ("id-1" ∉ ids example_station)
  /\ currentProjectId s' = Some "id-1"
  /\ projects s' = [mkTape "id-1" "Monkey" 1000 (voxels example_two) 16 1 "#00ff00"]
  /\ consistent s'.
Proof.
  cbv zeta.
  assert ("id-1" ∉ ids example_station) as Hfresh by apply not_elem_of_nil.
  destruct (X22_handleSave_stores example_station (Some "Monkey") "id-1" 1000
              consistent_example_station Hfresh) as (Hc & _ & Hid & _).
  split; [exact consistent_example_station|]. split; [exact Hfresh|].
  split; [exact Hid|]. split; [reflexivity|exact Hc].
Defined.

(** X23: saving the project that is open (its identifier set and not the
    empty string) changes neither the number nor the order nor the
    identifiers of the projects of the library: the projects with another
    identifier stay at their places as they are, and each project with the
    identifier of the open one becomes the project saved. *)
Theorem X23_handleSave_in_place
  (s : Station) (answer : option string) (uuid : string) (now : Z) (cur : string) :
  currentProjectId s = Some cur -> truthy cur = true ->
  let s' := handleSave answer uuid now s in
  ids s' = ids s
  /\ length (projects s') = length (projects s)
  /\ currentProjectId s' = Some cur
  /\ forall (i : nat) (t : Tape), projects s !! i = Some t ->
       (tape_id t <> cur -> projects s' !! i = Some t)
       /\ (tape_id t = cur -> projects s' !! i = Some (newProject answer uuid now s)).
Proof.
  intros Hopen Hcur. cbv zeta.
  pose proof (handleSave_projects answer uuid now s) as Hp. cbv zeta in Hp.
  rewrite Hopen, Hcur in Hp. destruct Hp as [Hid Hp].
  unfold ids. rewrite Hp. split; [now apply ids_replace|].
  split; [apply length_fmap|]. split.
  - unfold handleSave. rewrite Hopen. simpl. now rewrite Hcur.
  - intros i t Ht. rewrite list_lookup_fmap, Ht. simpl.
    destruct (String.eqb_spec (tape_id t) cur); split; congruence.
Qed.

Lemma X23_handleSave_in_place_witness :
  let s1 := handleSave (Some "Monkey") "id-1" 1000 example_station in
  let s2 := handleSave None "id-2" 2000 (edits [EvAdd (2, 0, 0) None] s1) in
  currentProjectId s1 = Some "id-1" /\ truthy "id-1" = true
  /\ ids s2 = ["id-1"]
  /\ (tape_name <$> projects s2) = ["Monkey"]
  /\ (length <$> (tape_voxels <$> projects s2)) = [3%nat].
Proof.
  cbv zeta. split; [reflexivity|]. split; [reflexivity|]. split; [|split; reflexivity].
  exact (proj1 (X23_handleSave_in_place
                  (edits [EvAdd (2, 0, 0) None]
                     (handleSave (Some "Monkey") "id-1" 1000 example_station))
                  None "id-2" 2000 "id-1" eq_refl eq_refl)).
Defined.

Lemma filter_id_spec (id : string) (l : list Tape) (t : Tape) :
  t ∈ List.filter (fun p => negb (String.eqb (tape_id p) id)) l
  <-> t ∈ l /\ tape_id t <> id.
Proof.
  rewrite !list_elem_of_In, filter_In, negb_true_iff.
  destruct (String.eqb_spec (tape_id t) id); intuition congruence.
Qed.

Lemma filter_sublist {A : Type} (f : A -> bool) (l : list A) :
  List.filter f l `sublist_of` l.
Proof.
  induction l as [|x l IH]; [constructor|]. simpl.
  destruct (f x); [apply sublist_skip|apply sublist_cons]; exact IH.
Qed.

Lemma deleteProject_projects (id : string) (s : Station) :
  projects (deleteProject id s)
  = List.filter (fun p => negb (String.eqb (tape_id p) id)) (projects s).
Proof.
  unfold deleteProject. destruct (currentProjectId s) as [cur|]; [|reflexivity].
  now destruct (String.eqb cur id).
Qed.

Lemma filter_id_fresh (id : string) (l : list Tape) :
  id ∉ tape_id <$> l ->
  List.filter (fun p => negb (String.eqb (tape_id p) id)) l = l.
Proof.
  induction l as [|p l IH]; intros Hfresh; [reflexivity|].
  rewrite fmap_cons in Hfresh. apply not_elem_of_cons in Hfresh as [Hne Hfresh].
  simpl. destruct (String.eqb_spec (tape_id p) id); [congruence|].
  simpl. f_equal. now apply IH.
Qed.

(** X24: deleting a project takes every project with that identifier out of
    the library and no other, and leaves the editor as it is, also when the
    project deleted is the open one: its voxels stay in the editor, which
    then has no open project, so that the next save makes a new one. *)
Theorem X24_deleteProject (s : Station) (id : string) :
  let s' := deleteProject id s in
  (id ∉ ids s')
  /\ (forall t, t ∈ projects s' <-> t ∈ projects s /\ tape_id t <> id)
  /\ projects s' `sublist_of` projects s
  /\ session s' = session s
  /\ (currentProjectId s = Some id ->
      currentProjectId s' = None /\ currentProjectName s' = "Untitled Tape")
  /\ (currentProjectId s <> Some id ->
      currentProjectId s' = currentProjectId s
      /\ currentProjectName s' = currentProjectName s)
  /\ (consistent s -> consistent s').
Proof.
  cbv zeta. pose proof (deleteProject_projects id s) as Hp.
  assert (forall t, t ∈ projects (deleteProject id s)
                    <-> t ∈ projects s /\ tape_id t <> id) as Hin
    by (intros t; rewrite Hp; apply filter_id_spec).
  assert (projects (deleteProject id s) `sublist_of` projects s) as Hsub.
  { rewrite Hp. apply filter_sublist. }
  assert (id ∉ ids (deleteProject id s)) as Hnot.
  { unfold ids. intros Hid. apply list_elem_of_fmap in Hid as (t & Heq & Ht).
    apply Hin in Ht as [_ Hne]. congruence. }
  split; [exact Hnot|]. split; [exact Hin|]. split; [exact Hsub|].
  split; [|split; [|split]].
  - unfold deleteProject. destruct (currentProjectId s) as [cur|]; [|reflexivity].
    now destruct (String.eqb cur id).
  - intros Hopen. unfold deleteProject. rewrite Hopen, String.eqb_refl. now split.
  - intros Hopen. unfold deleteProject. destruct (currentProjectId s) as [cur|]; [|now split].
    destruct (String.eqb_spec cur id); [congruence|now split].
  - intros [Hnd Hcur]. split.
    + unfold ids. eapply sublist_NoDup; [exact Hnd|]. now apply fmap_sublist.
    + intros c Hc. unfold deleteProject in Hc.
      destruct (currentProjectId s) as [cur|] eqn:Hopen; [|discriminate].
      destruct (String.eqb_spec cur id) as [Heq|Hne]; [discriminate|].
      simpl in Hc. injection Hc as <-.
      specialize (Hcur cur eq_refl). unfold ids in *.
      apply list_elem_of_fmap in Hcur as (t & Heq & Ht).
      apply list_elem_of_fmap. exists t. split; [exact Heq|].
      apply Hin. split; [exact Ht|congruence].
Qed.

(** X25: saving a project that is not open yet, with a fresh identifier,
    and deleting it right away gives back the library as it was; the voxels
    stay in the editor, with no project open. *)
Theorem X25_save_then_delete
  (s : Station) (answer : option string) (uuid : string) (now : Z) :
  currentProjectId s = None -> uuid ∉ ids s ->
  let s' := deleteProject uuid (handleSave answer uuid now s) in
  projects s' = projects s /\ currentProjectId s' = None /\ session s' = session s.
Proof.
  intros Hopen Hfresh. cbv zeta.
  pose proof (handleSave_projects answer uuid now s) as Hp. cbv zeta in Hp.
  rewrite Hopen in Hp. destruct Hp as [Hid Hp].
  assert (currentProjectId (handleSave answer uuid now s) = Some uuid) as Hcur
    by (unfold handleSave; now rewrite Hopen).
  split; [|split].
  - rewrite deleteProject_projects, Hp. cbn [List.filter].
    rewrite Hid, String.eqb_refl. cbn [negb]. now apply filter_id_fresh.
  - unfold deleteProject. now rewrite Hcur, String.eqb_refl.
  - unfold deleteProject. now rewrite Hcur, String.eqb_refl.
Qed.

Lemma X25_save_then_delete_witness :
  currentProjectId example_station = None /\ ("id-1" ∉ ids example_station)
  /\ projects (deleteProject "id-1" (handleSave None "id-1" 1000 example_station)) = []
  /\ session (deleteProject "id-1" (handleSave None "id-1" 1000 example_station))
     = example_two.
Proof.
  assert ("id-1" ∉ ids example_station) as Hfresh by apply not_elem_of_nil.
  destruct (X25_save_then_delete example_station None "id-1" 1000 eq_refl Hfresh)
    as (Hp & _ & Hs).
  split; [reflexivity|]. split; [exact Hfresh|]. split; [exact Hp|exact Hs].
Defined.

(** X26: a project saved and loaded again from the library, after whatever
    events of the editor that do not paint, shows the voxels and the colour
    the editor had when it was saved; its history starts anew with that
    store. *)
Theorem X26_save_edit_load
  (s : Station) (answer : option string) (uuid : string) (now : Z) (evs : list Event) :
  valid (heap (session s)) (voxels (session s)) -> unpainted evs (session s) ->
  let tape := newProject answer uuid now s in
  let s' := loadProject tape (edits evs (handleSave answer uuid now s)) in
  content (session s') = content (session s)
  /\ currentColor (session s') = currentColor (session s)
  /\ currentProjectId s' = Some (tape_id tape)
  /\ history (session s') = [voxels (session s)]
  /\ historyStep (session s') = 0.
Proof.
  intros Hv Hun. cbv zeta. split; [|repeat split].
  destruct (heap_grows_run evs (session s) Hun) as [h' Hh].
  unfold content. simpl. rewrite Hh. now apply deref_app_heap.
Qed.

Lemma X26_save_edit_load_witness :
  let evs := [EvAdd (2, 0, 0) None; EvRemove 0; EvSetColor "#0000ff"; EvClear] in
  let tape := newProject None "id-1" 1000 example_station in
  let s' := loadProject tape (edits evs (handleSave None "id-1" 1000 example_station)) in
  valid (heap example_two) (voxels example_two) /\ unpainted evs example_two
  /\ content (session (edits evs (handleSave None "id-1" 1000 example_station))) = []
  /\ content (session s') = content example_two
  /\ currentColor (session s') = "#00ff00".
Proof.
  cbv zeta.
  assert (valid (heap example_two) (voxels example_two)) as Hv
    by apply (inv_voxels Wf_example_two).
  assert (unpainted [EvAdd (2, 0, 0) None; EvRemove 0; EvSetColor "#0000ff"; EvClear]
                    example_two) as Hun
    by (simpl; tauto).
  destruct (X26_save_edit_load example_station None "id-1" 1000 _ Hv Hun)
    as (Hc & Hcol & _).
  split; [exact Hv|]. split; [exact Hun|]. split; [reflexivity|].
  split; [exact Hc|exact Hcol].
Defined.

(** X27: a colour painted after a save shows in the project when it is
    loaded from the library, although it was not saved again: the project
    of the library holds the voxel objects of the store, and painting
    writes into them. *)
Theorem X27_paint_after_save_shows_on_load
  (s : Station) (answer : option string) (uuid : string) (now : Z) (i : nat) (v : Voxel) :
  valid (heap (session s)) (voxels (session s)) -> NoDup (voxels (session s)) ->
  voxelAt (session s) (Z.of_nat i) = Some v ->
  let tape := newProject answer uuid now s in
  let s' := loadProject tape
              (edits [EvPaint (Z.of_nat i)] (handleSave answer uuid now s)) in
  content (session s')
  = <[i := mkVoxel (position v) (currentColor (session s))]> (content (session s))
  /\ currentColor (session s') = currentColor (session s).
Proof.
  intros Hv Hnd Hat. cbv zeta. split; [|reflexivity].
  unfold voxelAt in Hat.
  destruct (idx (voxels (session s)) (Z.of_nat i)) as [r|] eqn:Hr; [|discriminate].
  unfold content. simpl. unfold step. simpl. unfold updateVoxelColor. rewrite Hr.
  simpl. rewrite idx_of_nat in Hr.
  exact (deref_alter (paint (currentColor (session s))) r v _ _ i Hv Hnd Hr Hat).
Qed.

Lemma X27_paint_after_save_shows_on_load_witness :
  let saved := handleSave None "id-1" 1000 example_station in
  let tape := newProject None "id-1" 1000 example_station in
  valid (heap example_two) (voxels example_two) /\ NoDup (voxels example_two)
  /\ voxelAt example_two 0 = Some (mkVoxel (0, 0, 0) "#ff0000")
  /\ projects saved = [tape]
  /\ content (session saved)
     = [mkVoxel (0, 0, 0) "#ff0000"; mkVoxel (1, 0, 0) "#00ff00"]
  /\ content (session (loadProject tape (edits [EvPaint 0] saved)))
     = [mkVoxel (0, 0, 0) "#00ff00"; mkVoxel (1, 0, 0) "#00ff00"].
Proof.
  cbv zeta.
  assert (valid (heap example_two) (voxels example_two)) as Hv
    by apply (inv_voxels Wf_example_two).
  assert (NoDup (voxels example_two)) as Hnd.
  { apply NoDup_cons. split; [|apply NoDup_singleton].
    intros Hin. apply list_elem_of_singleton in Hin. discriminate Hin. }
  destruct (X27_paint_after_save_shows_on_load example_station None "id-1" 1000 0
              (mkVoxel (0, 0, 0) "#ff0000") Hv Hnd eq_refl) as (Hc & _).
  change (Z.of_nat 0) with 0 in Hc.
  split; [exact Hv|]. split; [exact Hnd|]. split; [reflexivity|].
  split; [reflexivity|]. split; [reflexivity|]. rewrite Hc. reflexivity.
Defined.
End GalleryFacts.
